(** * A model of the file-upload service of [core.go]

    The registry [fm.files : map[string]*FileInfo] is a [gmap string FileInfo];
    the upload directory and the metadata snapshot file are part of an explicit
    world; every handler runs in a state monad that records the registry lock
    (a [sync.RWMutex]) and logs each disk access together with the lock state at
    the moment it happens.  Go integers ([int], [int64], [time.Duration]) and
    instants ([time.Time]) are [Z]. *)

From Stdlib Require Import ZArith List String Ascii Bool Lia.
From Stdlib Require Import Sorting.Permutation Sorting.Sorted.
From stdpp Require Import base gmap strings list.

Open Scope Z_scope.

(** ** Data model *)

Record Config := mkConfig {
  UploadDir : string;
  MetadataFile : string;
  DefaultTTL : Z;            (* time.Duration, nanoseconds *)
  MaxFileSize : Z;
  AllowedTypes : list string;
  CleanupInterval : Z
}.

Record FileInfo := mkFileInfo {
  ID : string;
  Filename : string;
  OriginalName : string;
  Size : Z;
  ContentType : string;
  Checksum : string;
  UploadTime : Z;
  ExpiresAt : Z;
  Downloads : Z;
  MaxDownloads : Z;
  Password : string;
  UploaderIP : string;
  Tags : list string;
  Description : string;
  Path : string;
  Metadata : gmap string string
}.

(** [fileInfo.Downloads++] *)
Definition incr_downloads (fi : FileInfo) : FileInfo :=
  mkFileInfo (ID fi) (Filename fi) (OriginalName fi) (Size fi) (ContentType fi)
    (Checksum fi) (UploadTime fi) (ExpiresAt fi) (Downloads fi + 1)
    (MaxDownloads fi) (Password fi) (UploaderIP fi) (Tags fi) (Description fi)
    (Path fi) (Metadata fi).

(** State of the [sync.RWMutex]: [Readers n] means [n] read locks are held. *)
Inductive lockst := Free | Readers (n : nat) | Writer.

Inductive io_kind :=
  | ReadFile | WriteFile | StatFile | RemoveFile | CreateTemp | CopyToTemp
  | MkdirAll | CreateFile | CopyToDst | ServeFile.

(** Observable effects: a disk access, tagged with the lock state in which it
    happened, or one evaluation of the content hash. *)
Inductive event :=
  | EvIO (k : io_kind) (p : string) (held : lockst)
  | EvHash.

(** ** JSON

    [encoding/json] output, as a tree.  [time.Time] values are written in
    RFC 3339 with nanoseconds, which keeps the instant: they are [JTime]. *)

Local Set Warnings "-register-all".
Inductive json :=
  | JNull
  | JNum (z : Z)
  | JTime (t : Z)
  | JStr (s : string)
  | JArr (l : list json)
  | JObj (fs : list (string * json)).

(** The snapshot file: absent, present but not valid JSON, or holding the
    JSON document written by [saveMetadata]. *)
Inductive snapfile := NoSnapshot | Garbled | Snapshot (j : json).

Record World := mkWorld {
  files : gmap string FileInfo;
  disk : gmap string string;       (* path -> content, the upload directory *)
  snapshot : snapfile;
  lk : lockst;
  trace : list event
}.

Definition set_files (fs : gmap string FileInfo) (w : World) : World :=
  mkWorld fs (disk w) (snapshot w) (lk w) (trace w).
Definition set_disk (d : gmap string string) (w : World) : World :=
  mkWorld (files w) d (snapshot w) (lk w) (trace w).
Definition set_snapshot (s : snapfile) (w : World) : World :=
  mkWorld (files w) (disk w) s (lk w) (trace w).
Definition set_lk (l : lockst) (w : World) : World :=
  mkWorld (files w) (disk w) (snapshot w) l (trace w).
Definition log_event (e : event) (w : World) : World :=
  mkWorld (files w) (disk w) (snapshot w) (lk w) (trace w ++ [e]).

(** ** The handler monad

    [Blocked] is a goroutine waiting forever on the registry lock (it is the
    only goroutine that could release it); [Fault] is Go's fatal error on
    unlocking a mutex that is not held. *)

Inductive outcome (A : Type) :=
  | Done (a : A) (w : World)
  | Blocked (w : World)
  | Fault (w : World).
Arguments Done {A} a w.
Arguments Blocked {A} w.
Arguments Fault {A} w.

Definition M (A : Type) : Type := World -> outcome A.

Definition ret {A} (a : A) : M A := fun w => Done a w.
Definition bind {A B} (m : M A) (k : A -> M B) : M B := fun w =>
  match m w with
  | Done a w' => k a w'
  | Blocked w' => Blocked w'
  | Fault w' => Fault w'
  end.

Declare Scope handler_scope.
Delimit Scope handler_scope with H.
Notation "x <-- m ;; k" := (bind m (fun x => k))
  (at level 100, m at next level, right associativity) : handler_scope.
Notation "m ;;; k" := (bind m (fun _ => k))
  (at level 100, right associativity) : handler_scope.
Open Scope handler_scope.

(** [mutex.Lock()] *)
Definition lock : M unit := fun w =>
  match lk w with
  | Free => Done tt (set_lk Writer w)
  | _ => Blocked w
  end.

(** [mutex.Unlock()] *)
Definition unlock : M unit := fun w =>
  match lk w with
  | Writer => Done tt (set_lk Free w)
  | _ => Fault w
  end.

(** [mutex.RLock()] *)
Definition rlock : M unit := fun w =>
  match lk w with
  | Free => Done tt (set_lk (Readers 1) w)
  | Readers n => Done tt (set_lk (Readers (S n)) w)
  | Writer => Blocked w
  end.

(** [mutex.RUnlock()] *)
Definition runlock : M unit := fun w =>
  match lk w with
  | Readers 1 => Done tt (set_lk Free w)
  | Readers (S n) => Done tt (set_lk (Readers n) w)
  | _ => Fault w
  end.

Definition io (k : io_kind) (p : string) : M unit := fun w =>
  Done tt (log_event (EvIO k p (lk w)) w).

Definition get_files : M (gmap string FileInfo) := fun w => Done (files w) w.
Definition put_files (fs : gmap string FileInfo) : M unit := fun w =>
  Done tt (set_files fs w).
Definition get_disk : M (gmap string string) := fun w => Done (disk w) w.
Definition put_disk (d : gmap string string) : M unit := fun w =>
  Done tt (set_disk d w).

(** [os.Remove(p)]; [ok] is whether the file system accepted it. *)
Definition os_remove (ok : bool) (p : string) : M unit :=
  io RemoveFile p;;;
  if ok then (d <-- get_disk;; put_disk (delete p d)) else ret tt.

(** [json.Marshal] coerces every string to valid UTF-8: a byte that does not
    start a well-formed sequence (as [utf8.DecodeRuneInString] reads it) is
    replaced by U+FFFD, written EF BF BD. *)
Definition byte_of (c : ascii) : Z := Z.of_nat (nat_of_ascii c).
Definition in_range (lo hi : Z) (c : ascii) : bool :=
  (lo <=? byte_of c) && (byte_of c <=? hi).
Definition cont_byte : ascii -> bool := in_range 128 191.

(** second byte of a three-byte sequence led by [c] (utf8 acceptRanges) *)
Definition second3 (c c1 : ascii) : bool :=
  if byte_of c =? 224 then in_range 160 191 c1
  else if byte_of c =? 237 then in_range 128 159 c1
  else cont_byte c1.

(** second byte of a four-byte sequence led by [c] *)
Definition second4 (c c1 : ascii) : bool :=
  if byte_of c =? 240 then in_range 144 191 c1
  else if byte_of c =? 244 then in_range 128 143 c1
  else cont_byte c1.

Definition replacement_char : string :=
  String (ascii_of_nat 239) (String (ascii_of_nat 191) (String (ascii_of_nat 189) EmptyString)).

Fixpoint coerce_utf8 (s : string) : string :=
  match s with
  | EmptyString => EmptyString
  | String c rest =>
    if byte_of c <? 128 then String c (coerce_utf8 rest)
    else if in_range 194 223 c then
      match rest with
      | String c1 rest1 =>
          if cont_byte c1 then String c (String c1 (coerce_utf8 rest1))
          else (replacement_char ++ coerce_utf8 rest)%string
      | EmptyString => replacement_char
      end
    else if in_range 224 239 c then
      match rest with
      | String c1 (String c2 rest2) =>
          if second3 c c1 && cont_byte c2
          then String c (String c1 (String c2 (coerce_utf8 rest2)))
          else (replacement_char ++ coerce_utf8 rest)%string
      | _ => (replacement_char ++ coerce_utf8 rest)%string
      end
    else if in_range 240 244 c then
      match rest with
      | String c1 (String c2 (String c3 rest3)) =>
          if second4 c c1 && cont_byte c2 && cont_byte c3
          then String c (String c1 (String c2 (String c3 (coerce_utf8 rest3))))
          else (replacement_char ++ coerce_utf8 rest)%string
      | _ => (replacement_char ++ coerce_utf8 rest)%string
      end
    else (replacement_char ++ coerce_utf8 rest)%string
  end.

Fixpoint valid_utf8 (s : string) : bool :=
  match s with
  | EmptyString => true
  | String c rest =>
    if byte_of c <? 128 then valid_utf8 rest
    else if in_range 194 223 c then
      match rest with
      | String c1 rest1 => cont_byte c1 && valid_utf8 rest1
      | EmptyString => false
      end
    else if in_range 224 239 c then
      match rest with
      | String c1 (String c2 rest2) => second3 c c1 && cont_byte c2 && valid_utf8 rest2
      | _ => false
      end
    else if in_range 240 244 c then
      match rest with
      | String c1 (String c2 (String c3 rest3)) =>
          second4 c c1 && cont_byte c2 && cont_byte c3 && valid_utf8 rest3
      | _ => false
      end
    else false
  end.

(** The text [json.Marshal] writes, as [json.Unmarshal] reads it back. *)
Fixpoint render (j : json) : json :=
  match j with
  | JStr s => JStr (coerce_utf8 s)
  | JArr l => JArr (map render l)
  | JObj fs => JObj (map (fun '(k, v) => (coerce_utf8 k, render v)) fs)
  | j => j
  end.

(** The struct tags of [FileInfo]; [password] is [omitempty]; a nil [Tags]
    slice (no tags given at upload) is [null]. *)
Definition json_of_fileinfo (fi : FileInfo) : json :=
  JObj (app [("id", JStr (ID fi)); ("filename", JStr (Filename fi));
         ("original_name", JStr (OriginalName fi)); ("size", JNum (Size fi));
         ("content_type", JStr (ContentType fi)); ("checksum", JStr (Checksum fi));
         ("upload_time", JTime (UploadTime fi)); ("expires_at", JTime (ExpiresAt fi));
         ("downloads", JNum (Downloads fi)); ("max_downloads", JNum (MaxDownloads fi))]
        (app (if String.eqb (Password fi) "" then [] else [("password", JStr (Password fi))])
           [("uploader_ip", JStr (UploaderIP fi));
            ("tags", match Tags fi with [] => JNull | ts => JArr (map JStr ts) end);
            ("description", JStr (Description fi)); ("path", JStr (Path fi));
            ("metadata", JObj (map (fun '(k, v) => (k, JStr v)) (map_to_list (Metadata fi))))]))%string.

(** [json.MarshalIndent(fm.files, ...)] *)
Definition json_of_files (fs : gmap string FileInfo) : json :=
  JObj (map (fun '(k, fi) => (k, json_of_fileinfo fi)) (map_to_list fs)).

(** [json.Unmarshal] into [FileInfo]: an absent field or [null] leaves the zero
    value, a value of the wrong type is an error. *)
Fixpoint field (k : string) (fs : list (string * json)) : option json :=
  match fs with
  | [] => None
  | (k', v) :: rest => if String.eqb k k' then Some v else field k rest
  end.

Definition dec_str (o : option json) : option string :=
  match o with
  | None | Some JNull => Some ""%string
  | Some (JStr s) => Some s
  | _ => None
  end.

Definition dec_num (o : option json) : option Z :=
  match o with
  | None | Some JNull => Some 0
  | Some (JNum z) => Some z
  | _ => None
  end.

Definition dec_time (o : option json) : option Z :=
  match o with
  | Some (JTime t) => Some t
  | _ => None
  end.

Definition dec_strs (o : option json) : option (list string) :=
  match o with
  | None | Some JNull => Some []
  | Some (JArr l) => mapM (fun j => match j with JStr s => Some s | _ => None end) l
  | _ => None
  end.

Definition dec_meta (o : option json) : option (gmap string string) :=
  match o with
  | None | Some JNull => Some ∅
  | Some (JObj kvs) =>
      l ← mapM (fun '(k, j) => match j with JStr s => Some (k, s) | _ => None end) kvs;
      Some (list_to_map l)
  | _ => None
  end.

Definition fileinfo_of_json (j : json) : option FileInfo :=
  match j with
  | JObj fs =>
      id ← dec_str (field "id" fs); fn ← dec_str (field "filename" fs);
      on ← dec_str (field "original_name" fs); sz ← dec_num (field "size" fs);
      ct ← dec_str (field "content_type" fs); ck ← dec_str (field "checksum" fs);
      ut ← dec_time (field "upload_time" fs); ex ← dec_time (field "expires_at" fs);
      dl ← dec_num (field "downloads" fs); md ← dec_num (field "max_downloads" fs);
      pw ← dec_str (field "password" fs); ip ← dec_str (field "uploader_ip" fs);
      tg ← dec_strs (field "tags" fs); ds ← dec_str (field "description" fs);
      pa ← dec_str (field "path" fs); me ← dec_meta (field "metadata" fs);
      Some (mkFileInfo id fn on sz ct ck ut ex dl md pw ip tg ds pa me)
  | _ => None
  end%string.

Definition files_of_json (j : json) : option (gmap string FileInfo) :=
  match j with
  | JObj kvs =>
      l ← mapM (fun '(k, v) => fi ← fileinfo_of_json v; Some (k, fi)) kvs;
      Some (list_to_map l)
  | _ => None
  end.

(** ** Handlers *)

Inductive response :=
  | HttpError (status : Z) (msg : string)
  | Served (name content_type checksum : string) (body : option string)
  | JsonBody (j : json)
  | SeeOther (url : string)
  | HtmlPage (rows : list FileInfo)
  | UploadedText (download_url : string) (expires : Z) (checksum : string).

Section Handlers.

Variable cfg : Config.

Definition set_snap (s : snapfile) : M unit := fun w => Done tt (set_snapshot s w).

(** [saveMetadata]: the read lock is held (deferred [RUnlock]) while the map
    is marshalled and the file written; [ok] is whether [os.WriteFile]
    succeeded. *)
Definition saveMetadata (ok : bool) : M unit :=
  rlock;;;
  fs <-- get_files;;
  io WriteFile (MetadataFile cfg);;;
  (if ok then set_snap (Snapshot (render (json_of_files fs))) else ret tt);;;
  runlock.

(** [loadMetadata], run by [NewFileManager] before any handler: an unreadable
    or unparsable snapshot leaves the empty map of [NewFileManager]; records
    whose [Path] does not [os.Stat] are dropped. *)
Definition loadMetadata (sf : snapfile) (d : gmap string string) : gmap string FileInfo :=
  match sf with
  | NoSnapshot | Garbled => ∅
  | Snapshot j =>
      match files_of_json j with
      | None => ∅
      | Some fs => filter (fun kv : string * FileInfo => is_Some (d !! Path kv.2)) fs
      end
  end.

(** The two conditions of [cleanup]. *)
Definition eligible (now : Z) (fi : FileInfo) : bool :=
  (now >? ExpiresAt fi) || ((MaxDownloads fi >? 0) && (Downloads fi >=? MaxDownloads fi)).

(** The [for id, fileInfo := range fm.files] loop of [cleanup]; Go's map order
    is unspecified, [map_to_list] is one such order. *)
Fixpoint cleanup_loop (now : Z) (rm_ok : string -> bool)
    (entries : list (string * FileInfo)) (cleaned : Z) : M Z :=
  match entries with
  | [] => ret cleaned
  | (id, fi) :: rest =>
      if eligible now fi then
        os_remove (rm_ok (Path fi)) (Path fi);;;
        fs <-- get_files;;
        put_files (delete id fs);;;
        cleanup_loop now rm_ok rest (cleaned + 1)
      else cleanup_loop now rm_ok rest cleaned
  end.

(** [cleanup]: the write lock is held for the whole sweep (deferred [Unlock]),
    including the final [saveMetadata]. *)
Definition cleanup (now : Z) (rm_ok : string -> bool) (save_ok : bool) : M unit :=
  lock;;;
  fs <-- get_files;;
  cleaned <-- cleanup_loop now rm_ok (map_to_list fs) 0;;
  (if cleaned >? 0 then saveMetadata save_ok else ret tt);;;
  unlock.

(** The checks [downloadFile] makes on the record it looked up. *)
Inductive dl_decision :=
  | DNotFound | DUnauthorized | DExpired (fi : FileInfo) | DLimit | DServe (fi : FileInfo).

Definition download_check (now : Z) (password : string) (o : option FileInfo) : dl_decision :=
  match o with
  | None => DNotFound
  | Some fi =>
      if negb (String.eqb (Password fi) "") && negb (String.eqb (Password fi) password)
      then DUnauthorized
      else if now >? ExpiresAt fi then DExpired fi
      else if (MaxDownloads fi >? 0) && (Downloads fi >=? MaxDownloads fi) then DLimit
      else DServe fi
  end%string.

(** [downloadFile]; the [go fm.saveMetadata()] at the end is run in sequence. *)
Definition downloadFile (now : Z) (fileID password : string) (rm_ok save_ok : bool)
    : M response :=
  rlock;;;
  fs <-- get_files;;
  runlock;;;
  match download_check now password (fs !! fileID) with
  | DNotFound => ret (HttpError 404 "File not found")
  | DUnauthorized => ret (HttpError 401 "Password required")
  | DExpired fi =>
      lock;;;
      fs' <-- get_files;;
      put_files (delete fileID fs');;;
      unlock;;;
      os_remove rm_ok (Path fi);;;
      saveMetadata save_ok;;;
      ret (HttpError 404 "File expired")
  | DLimit => ret (HttpError 403 "Download limit reached")
  | DServe fi =>
      lock;;;
      fs' <-- get_files;;
      put_files (alter incr_downloads fileID fs');;;
      unlock;;;
      io ServeFile (Path fi);;;
      d <-- get_disk;;
      saveMetadata save_ok;;;
      ret (Served (OriginalName fi) (ContentType fi) (Checksum fi) (d !! Path fi))
  end%string.

(** [deleteFile]; [accept_json] is whether the Accept header asks for JSON. *)
Definition deleteFile (fileID : string) (rm_ok save_ok accept_json : bool) : M response :=
  lock;;;
  fs <-- get_files;;
  match fs !! fileID with
  | Some fi =>
      put_files (delete fileID fs);;;
      unlock;;;
      os_remove rm_ok (Path fi);;;
      saveMetadata save_ok;;;
      ret (if accept_json then JsonBody (JObj [("status", JStr "deleted")])
           else SeeOther "/manage")
  | None =>
      unlock;;;
      ret (HttpError 404 "File not found")
  end%string.

(** The loop of [bulkDelete], run under the write lock. *)
Fixpoint bulk_loop (rm_ok : string -> bool) (ids : list string) (deleted : Z) : M Z :=
  match ids with
  | [] => ret deleted
  | fileID :: rest =>
      fs <-- get_files;;
      match fs !! fileID with
      | Some fi =>
          os_remove (rm_ok (Path fi)) (Path fi);;;
          put_files (delete fileID fs);;;
          bulk_loop rm_ok rest (deleted + 1)
      | None => bulk_loop rm_ok rest deleted
      end
  end.

(** [bulkDelete] on a POST whose body decoded to [file_ids = ids]. *)
Definition bulkDelete (ids : list string) (rm_ok : string -> bool) (save_ok : bool)
    : M response :=
  lock;;;
  deleted <-- bulk_loop rm_ok ids 0;;
  unlock;;;
  (if deleted >? 0 then saveMetadata save_ok else ret tt);;;
  ret (JsonBody (JObj [("deleted", JNum deleted); ("total", JNum (Z.of_nat (length ids)))])).

(** [fileInfo] *)
Definition fileInfo (fileID : string) : M response :=
  rlock;;;
  fs <-- get_files;;
  runlock;;;
  match fs !! fileID with
  | None => ret (HttpError 404 "File not found")
  | Some fi => ret (JsonBody (json_of_fileinfo fi))
  end%string.


(** ** Upload *)

(** [strconv.Atoi]: an optional sign, at least one decimal digit, in range. *)
Fixpoint digits_val (s : string) (acc : Z) : option Z :=
  match s with
  | EmptyString => Some acc
  | String c rest =>
      if in_range 48 57 c then digits_val rest (acc * 10 + (byte_of c - 48)) else None
  end.

Definition wrap64 (z : Z) : Z := (z + 2 ^ 63) mod 2 ^ 64 - 2 ^ 63.

Definition atoi (s : string) : option Z :=
  let '(neg, body) :=
    match s with
    | String c rest =>
        if Ascii.eqb c "+"%char then (false, rest)
        else if Ascii.eqb c "-"%char then (true, rest) else (false, s)
    | EmptyString => (false, s)
    end in
  match body with
  | EmptyString => None
  | _ =>
      match digits_val body 0 with
      | None => None
      | Some v =>
          let n := if neg then - v else v in
          if (- 2 ^ 63 <=? n) && (n <? 2 ^ 63) then Some n else None
      end
  end.

(** [strings.Contains] *)
Fixpoint contains (s sub : string) : bool :=
  String.prefix sub s ||
  match s with
  | EmptyString => false
  | String _ rest => contains rest sub
  end.

(** [strings.ReplaceAll(s, old, new)] for a one-character [old]. *)
Fixpoint replace_char (old : ascii) (new : string) (s : string) : string :=
  match s with
  | EmptyString => EmptyString
  | String c rest =>
      if Ascii.eqb c old then (new ++ replace_char old new rest)%string
      else String c (replace_char old new rest)
  end.

(** [strings.Split(s, sep)] for a one-character [sep] *)
Fixpoint split_char (sep : ascii) (s : string) : list string :=
  match s with
  | EmptyString => [EmptyString]
  | String c rest =>
      if Ascii.eqb c sep then EmptyString :: split_char sep rest
      else match split_char sep rest with
           | w :: ws => String c w :: ws
           | [] => [String c EmptyString]
           end
  end.

(** The multipart upload as the handler sees it. *)
Record UploadReq := mkUploadReq {
  up_filename : string;          (* header.Filename *)
  up_content_type : string;      (* header.Header.Get("Content-Type") *)
  up_content : string;           (* the bytes of the "file" part *)
  up_ttl : string;
  up_max_downloads : string;
  up_password : string;
  up_description : string;
  up_tags : string;
  up_remote_addr : string;
  up_host : string;
  up_accept_json : bool
}.

(** Which of the fallible steps of [uploadFile] succeed. *)
Record UploadEnv := mkUploadEnv {
  form_ok : bool;        (* ParseMultipartForm and FormFile *)
  temp_ok : bool;        (* os.CreateTemp *)
  copy_temp_ok : bool;   (* io.Copy(tempFile, file) *)
  mkdir_ok : bool;       (* os.MkdirAll *)
  create_ok : bool;      (* os.Create(fileInfo.Path) *)
  copy_dst_ok : bool;    (* io.Copy(dst, tempFile) *)
  save_ok : bool         (* os.WriteFile in saveMetadata *)
}.

(** [filepath.Join(dir, name)] for a clean [dir] and a name without separators. *)
Definition path_join (dir name : string) : string := (dir ++ "/" ++ name)%string.

Definition hash_step : M unit := fun w => Done tt (log_event EvHash w).

(** [calculateChecksum]: hex-encoded SHA-256 of the whole content. *)
Variable sha256_hex : string -> string.

Definition calculateChecksum (content : string) : M string :=
  hash_step;;; ret (sha256_hex content).

Definition parse_ttl (ttlStr : string) : Z :=
  if String.eqb ttlStr "" then DefaultTTL cfg
  else match atoi ttlStr with
       | Some n => wrap64 (n * 1000000000)   (* time.Duration(ttlInt) * time.Second *)
       | None => DefaultTTL cfg
       end.

Definition parse_max_downloads (s : string) : Z :=
  if String.eqb s "" then 0 else match atoi s with Some md => md | None => 0 end.

Definition parse_tags (tagsStr : string) : list string :=
  if String.eqb tagsStr "" then []
  else split_char ","%char (replace_char " "%char "" tagsStr).

Definition type_allowed (contentType : string) : bool :=
  match AllowedTypes cfg with
  | [] => true
  | ts => existsb (fun t => contains contentType t) ts
  end.

(** [uploadFile] on a POST; [fileID] is what [generateID] returned and [now]
    is [time.Now()].  The deferred removal of the temporary file runs last. *)
Definition uploadFile (fileID : string) (now : Z) (r : UploadReq) (env : UploadEnv)
    : M response :=
  if negb (form_ok env) then ret (HttpError 400 "No file provided") else
  if negb (type_allowed (up_content_type r)) then ret (HttpError 400 "File type not allowed") else
  let ttl := parse_ttl (up_ttl r) in
  let maxDownloads := parse_max_downloads (up_max_downloads r) in
  let tags := parse_tags (up_tags r) in
  let safeFilename := replace_char " "%char "_" (up_filename r) in
  let storedFilename := (fileID ++ "_" ++ safeFilename)%string in
  let tmp := "upload_*"%string in
  io CreateTemp tmp;;;
  if negb (temp_ok env) then ret (HttpError 500 "Server error") else
  let finish (resp : response) := io RemoveFile tmp;;; ret resp in
  io CopyToTemp tmp;;;
  if negb (copy_temp_ok env) then finish (HttpError 500 "Server error") else
  checksum <-- calculateChecksum (up_content r);;
  let fi := mkFileInfo fileID safeFilename (up_filename r) (Z.of_nat (String.length (up_content r)))
              (up_content_type r) checksum now (now + ttl) 0 maxDownloads
              (up_password r) (up_remote_addr r) tags (up_description r)
              (path_join (UploadDir cfg) storedFilename) ∅ in
  io MkdirAll (UploadDir cfg);;;
  if negb (mkdir_ok env) then finish (HttpError 500 "Server error") else
  io CreateFile (Path fi);;;
  if negb (create_ok env) then finish (HttpError 500 "Server error") else
  d <-- get_disk;;
  put_disk (<[Path fi := ""%string]> d);;;
  io CopyToDst (Path fi);;;
  if negb (copy_dst_ok env) then finish (HttpError 500 "Server error") else
  d' <-- get_disk;;
  put_disk (<[Path fi := up_content r]> d');;;
  lock;;;
  fs <-- get_files;;
  put_files (<[fileID := fi]> fs);;;
  unlock;;;
  saveMetadata (save_ok env);;;
  let downloadURL := ("http://" ++ up_host r ++ "/download/" ++ fileID)%string in
  let expires := ExpiresAt fi - ExpiresAt fi mod 1000000000 in   (* RFC 3339, seconds *)
  finish (if up_accept_json r then
            JsonBody (JObj [("checksum", JStr checksum); ("download_url", JStr downloadURL);
                            ("expires_at", JTime expires); ("filename", JStr safeFilename);
                            ("id", JStr fileID); ("max_downloads", JNum maxDownloads);
                            ("original_name", JStr (up_filename r));
                            ("size", JNum (Size fi))])
          else UploadedText downloadURL expires checksum)%string.

(** ** Queries *)

(** [strings.ToLower] and [strings.EqualFold] (Unicode case mapping) *)
Variable to_lower : string -> string.
Variable equal_fold : string -> string -> bool.

(** The filter of [searchFiles]. *)
Definition search_match (query tag : string) (fi : FileInfo) : bool :=
  (if String.eqb query "" then true
   else contains (to_lower (Filename fi)) (to_lower query)
        || contains (to_lower (Description fi)) (to_lower query))
  && (if String.eqb tag "" then true
      else existsb (fun t => equal_fold t tag) (Tags fi)).

(** [sort.Slice(l, func(i, j) { return key(l[i]) > key(l[j]) })], by
    insertion; [sort.Slice] is not stable, so only the order of the keys is
    determined, not the order among equal keys. *)
Fixpoint insert_desc (key : FileInfo -> Z) (x : FileInfo) (l : list FileInfo) : list FileInfo :=
  match l with
  | [] => [x]
  | y :: rest => if key x >? key y then x :: y :: rest else y :: insert_desc key x rest
  end.

Fixpoint sort_desc (key : FileInfo -> Z) (l : list FileInfo) : list FileInfo :=
  match l with
  | [] => []
  | x :: rest => insert_desc key x (sort_desc key rest)
  end.

Definition sort_key (sortBy : string) : FileInfo -> Z :=
  if String.eqb sortBy "size" then Size
  else if String.eqb sortBy "downloads" then Downloads
  else UploadTime.

(** [json.Encode] of a [[]*FileInfo] built by [append] from nil. *)
Definition json_of_appended (l : list FileInfo) : json :=
  match l with [] => JNull | _ => JArr (map json_of_fileinfo l) end.

(** [searchFiles] with query parameters [q], [tag], [sort]. *)
Definition searchFiles (query tag sortBy : string) : M response :=
  rlock;;;
  fs <-- get_files;;
  let matchingFiles := filter (search_match query tag) (map snd (map_to_list fs)) in
  runlock;;;
  ret (JsonBody (json_of_appended (sort_desc (sort_key sortBy) matchingFiles))).

(** [manageFiles]; the HTML page lists the same rows. *)
Definition manageFiles (accept_json : bool) : M response :=
  rlock;;;
  fs <-- get_files;;
  let files := map snd (map_to_list fs) in
  runlock;;;
  let sorted := sort_desc UploadTime files in
  if accept_json then ret (JsonBody (JArr (map json_of_fileinfo sorted)))
  else rlock;;; runlock;;; ret (HtmlPage sorted).

Definition parse_limit (l : string) : Z :=
  if String.eqb l "" then 50
  else match atoi l with
       | Some parsed => if (parsed >? 0) && (parsed <=? 1000) then parsed else 50
       | None => 50
       end.

Definition parse_offset (o : string) : Z :=
  if String.eqb o "" then 0
  else match atoi o with
       | Some parsed => if parsed >=? 0 then parsed else 0
       | None => 0
       end.

(** [files[offset:end]] with [end = min(offset+limit, total)], or empty. *)
Definition paginate (offset limit : Z) (l : list FileInfo) : list FileInfo :=
  let total := Z.of_nat (length l) in
  let end_ := Z.min (wrap64 (offset + limit)) total in
  if offset >=? total then []
  else firstn (Z.to_nat (end_ - offset)) (skipn (Z.to_nat offset) l).

(** [listFilesAPI] with query parameters [limit] and [offset]. *)
Definition listFilesAPI (limitStr offsetStr : string) : M response :=
  let limit := parse_limit limitStr in
  let offset := parse_offset offsetStr in
  rlock;;;
  fs <-- get_files;;
  let files := map snd (map_to_list fs) in
  runlock;;;
  let sorted := sort_desc UploadTime files in
  let total := Z.of_nat (length sorted) in
  ret (JsonBody (JObj [("files", JArr (map json_of_fileinfo (paginate offset limit sorted)));
                       ("limit", JNum limit); ("offset", JNum offset); ("total", JNum total)]))%string.

End Handlers.

(** ** Two concurrent downloads of one id

    [downloadFile] looks the record up under the read lock and checks it with
    no lock held (lines 375-405); only the increment takes the write lock
    (lines 408-410).  A thread is split at that point, and a schedule says
    which thread moves next.  The record is shared through its pointer: the
    increment acts on the entry of the map. *)

Inductive dl_thread :=
  | TStart
  | TPassed (fi : FileInfo)
  | TDone (d : dl_decision).

Definition dl_thread_step (now : Z) (fileID password : string)
    (fs : gmap string FileInfo) (t : dl_thread) : gmap string FileInfo * dl_thread :=
  match t with
  | TStart =>
      match download_check now password (fs !! fileID) with
      | DServe fi => (fs, TPassed fi)
      | DExpired fi => (delete fileID fs, TDone (DExpired fi))
      | d => (fs, TDone d)
      end
  | TPassed fi => (alter incr_downloads fileID fs, TDone (DServe fi))
  | TDone d => (fs, TDone d)
  end.

Definition conc_step (now : Z) (fileID password : string) (i : nat)
    (st : gmap string FileInfo * list dl_thread) : gmap string FileInfo * list dl_thread :=
  let '(fs, ts) := st in
  match ts !! i with
  | Some t => let '(fs', t') := dl_thread_step now fileID password fs t in (fs', <[i := t']> ts)
  | None => st
  end.

Definition run_schedule (now : Z) (fileID password : string) (sched : list nat)
    (st : gmap string FileInfo * list dl_thread) : gmap string FileInfo * list dl_thread :=
  fold_left (fun st i => conc_step now fileID password i st) sched st.

(** ** Sample data *)

(** The defaults of [loadConfig]. *)
Definition cfg_default : Config :=
  mkConfig "./files" "./metadata.json" 3600000000000 (100 * 1024 * 1024) [] 300000000000.

(** An unprotected record limited to one download, valid until [1000]. *)
Definition limited_record : FileInfo :=
  mkFileInfo "f" "a.txt" "a.txt" 10 "text/plain" "c0ffee" 0 1000 0 1 "" "127.0.0.1"
    [] "" "./files/f_a.txt" ∅.

Definition world_of (fs : gmap string FileInfo) (d : gmap string string) : World :=
  mkWorld fs d NoSnapshot Free [].

Definition empty_world : World := world_of ∅ ∅.

(** A record protected by the password "abc". *)
Definition protected_record : FileInfo :=
  mkFileInfo "p" "s.txt" "s.txt" 3 "text/plain" "ab12" 0 1000 0 0 "abc" "127.0.0.1"
    ["work"] "notes" "./files/p_s.txt" ∅.

Definition protected_world : World :=
  world_of (<["p" := protected_record]> ∅) (<["./files/p_s.txt" := "xyz"]> ∅).

Definition limited_world : World :=
  world_of (<["f" := limited_record]> ∅) (<["./files/f_a.txt" := "0123456789"]> ∅).

(** [k] records with distinct one-character ids, the [n]-th uploaded at [n]. *)
Definition numbered_record (n : nat) : FileInfo :=
  let id := String (ascii_of_nat (48 + n)) EmptyString in
  mkFileInfo id "n.txt" "n.txt" 1 "text/plain" "" (Z.of_nat n) 100000 0 0 "" "127.0.0.1"
    [] "" (path_join "./files" (id ++ "_n.txt")) ∅.

Definition numbered_world (k : nat) : World :=
  world_of (list_to_map (map (fun n => (ID (numbered_record n), numbered_record n)) (seq 0 k))) ∅.

(** An upload of the five bytes "hello" with every step succeeding. *)
Definition upload_sample : UploadReq :=
  mkUploadReq "a.txt" "text/plain" "hello" "" "" "" "" "" "127.0.0.1" "h" false.

Definition upload_env_ok : UploadEnv := mkUploadEnv true true true true true true true.

(** A record whose description is the single byte 0xFF, which is not UTF-8
    (form values are taken byte for byte). *)
Definition garbled_record : FileInfo :=
  mkFileInfo "g" "b.txt" "b.txt" 3 "text/plain" "ab12" 0 1000 0 0 "" "127.0.0.1"
    [] (String (ascii_of_nat 255) EmptyString) "./files/g_b.txt" ∅.

Definition garbled_world : World :=
  world_of (<["g" := garbled_record]> ∅) (<["./files/g_b.txt" := "xyz"]> ∅).

(** ** Observations on responses and traces *)

(** The value of key [k] in a JSON object. *)
Definition json_field (j : json) (k : string) : option json :=
  match j with JObj fs => field k fs | _ => None end.

(** The checksum a response hands to the client: the [checksum] field of
    the JSON upload answer, or the one printed in the plain-text answer. *)
Definition resp_checksum (r : response) : option string :=
  match r with
  | JsonBody j => match json_field j "checksum" with Some (JStr c) => Some c | _ => None end
  | UploadedText _ _ c => Some c
  | _ => None
  end%string.

(** A run of [calculateChecksum] in the trace. *)
Definition is_hash (e : event) : bool := match e with EvHash => true | _ => false end.

(** Every string of a record, and every key of the registry, is valid UTF-8. *)
Definition fileinfo_valid (fi : FileInfo) : bool :=
  forallb valid_utf8 [ID fi; Filename fi; OriginalName fi; ContentType fi; Checksum fi;
                      Password fi; UploaderIP fi; Description fi; Path fi]
  && forallb valid_utf8 (Tags fi)
  && forallb (fun kv => valid_utf8 kv.1 && valid_utf8 kv.2) (map_to_list (Metadata fi)).

Definition registry_valid (fs : gmap string FileInfo) : bool :=
  forallb (fun kv => valid_utf8 kv.1 && fileinfo_valid kv.2) (map_to_list fs).

(** The link between the registry and the upload directory: every record's
    [Path] is on disk, and distinct ids have distinct paths. *)
Definition reg_ok (fs : gmap string FileInfo) (d : gmap string string) : Prop :=
  (forall id fi, fs !! id = Some fi -> is_Some (d !! Path fi)) /\
  (forall id1 id2 fi1 fi2, fs !! id1 = Some fi1 -> fs !! id2 = Some fi2 ->
     Path fi1 = Path fi2 -> id1 = id2).

Definition world_ok (w : World) : Prop := reg_ok (files w) (disk w).

(** The world a run ends in, whether it returns, blocks or faults. *)
Definition final_world {A} (o : outcome A) : World :=
  match o with Done _ w | Blocked w | Fault w => w end.

(** The [Path] [uploadFile] gives the record of [fileID]. *)
Definition upload_path (cfg : Config) (fileID : string) (r : UploadReq) : string :=
  path_join (UploadDir cfg) (fileID ++ "_" ++ replace_char " "%char "_" (up_filename r))%string.

(** ** Statistics, the management page, the API router and generated ids *)

(** [UploadStats]; every field is a Go [int] or [int64]. *)
Record UploadStats := mkUploadStats {
  TotalFiles : Z;
  TotalSize : Z;
  TotalDownloads : Z;
  ActiveFiles : Z
}.

(** One turn of the loop of [getStats] (and of the page data of
    [manageFiles]): [now.Before(ExpiresAt)] counts the record as active. *)
Definition stats_step (now : Z) (st : UploadStats) (fi : FileInfo) : UploadStats :=
  mkUploadStats (wrap64 (TotalFiles st + 1)) (wrap64 (TotalSize st + Size fi))
    (wrap64 (TotalDownloads st + Downloads fi))
    (if now <? ExpiresAt fi then wrap64 (ActiveFiles st + 1) else ActiveFiles st).

Definition compute_stats (now : Z) (l : list FileInfo) : UploadStats :=
  fold_left (stats_step now) l (mkUploadStats 0 0 0 0).

Definition json_of_stats (st : UploadStats) : json :=
  JObj [("total_files", JNum (TotalFiles st)); ("total_size", JNum (TotalSize st));
        ("total_downloads", JNum (TotalDownloads st)); ("active_files", JNum (ActiveFiles st))].

(** [getStats]; the map is ranged over in the order of [map_to_list]. *)
Definition getStats (now : Z) : M response :=
  rlock;;;
  fs <-- get_files;;
  let stats := compute_stats now (map snd (map_to_list fs)) in
  runlock;;;
  ret (JsonBody (json_of_stats stats)).

(** What the [formatBytes] template function prints: [fmt.Sprintf("%d B", n)],
    or [fmt.Sprintf("%.1f %cB", float64(bytes)/float64(div), unit)]. *)
Inductive byte_text :=
  | PlainBytes (n : Z)
  | ScaledBytes (bytes div : Z) (unit : ascii).

(** [for n := bytes / unit; n >= unit; n /= unit { div *= unit; exp++ }];
    an [int64] goes round at most six times, within the 64 of [fuel]. *)
Fixpoint fb_loop (fuel : nat) (n div exp : Z) : Z * Z :=
  match fuel with
  | O => (div, exp)
  | S f => if n >=? 1024 then fb_loop f (n / 1024) (div * 1024) (exp + 1) else (div, exp)
  end.

(** [formatBytes]; [None] is the panic of indexing ["KMGTPE"] out of range. *)
Definition formatBytes (bytes : Z) : option byte_text :=
  if bytes <? 1024 then Some (PlainBytes bytes)
  else let '(div, exp) := fb_loop 64 (bytes / 1024) 1024 0 in
       match String.get (Z.to_nat exp) "KMGTPE" with
       | Some u => if exp <? 0 then None else Some (ScaledBytes bytes div u)
       | None => None
       end.

(** The [substr] template function; [None] is the panic of [s[start:end]]. *)
Definition substr (s : string) (start length : Z) : option string :=
  let n := Z.of_nat (String.length s) in
  if start >=? n then Some EmptyString
  else
    let end_ := Z.min (wrap64 (start + length)) n in
    if (start <? 0) || (end_ <? start) then None
    else Some (String.substring (Z.to_nat start) (Z.to_nat (end_ - start)) s).

(** [TemplateFile], a row of the management page. *)
Record TemplateFile := mkTemplateFile {
  tf_file : FileInfo;
  IsExpired : bool;
  NearLimit : bool
}.

(** The row of [f] at [now] (the handler reads [time.Now()] for each row). *)
Definition templateFile (now : Z) (f : FileInfo) : TemplateFile :=
  let isExpired := now >? ExpiresAt f in
  let nearLimit := (MaxDownloads f >? 0) && (Downloads f >=? MaxDownloads f - 1) in
  mkTemplateFile f isExpired (nearLimit && negb isExpired).

(** The data the HTML branch of [manageFiles] hands to the template: the rows
    in the order of [files] (newest first) and the statistics. *)
Definition manage_page (now : Z) (fs : gmap string FileInfo) : list TemplateFile * UploadStats :=
  let files := map snd (map_to_list fs) in
  (map (templateFile now) (sort_desc UploadTime files), compute_stats now files).

(** [strings.TrimPrefix] *)
Definition trim_prefix (prefix s : string) : string :=
  if String.prefix prefix s
  then String.substring (String.length prefix) (String.length s - String.length prefix) s
  else s.

(** [healthCheck]; [timestamp] and [uptime] are the formatted clock readings. *)
Definition healthCheck (timestamp uptime : string) : M response :=
  rlock;;;
  fs <-- get_files;;
  let fileCount := Z.of_nat (length (map_to_list fs)) in
  runlock;;;
  ret (JsonBody (JObj [("file_count", JNum fileCount); ("status", JStr "healthy");
                       ("timestamp", JStr timestamp); ("uptime", JStr uptime)]))%string.

(** [apiHandler] for a request to [urlPath] with [method]; the remaining
    arguments are what the handler it dispatches to reads. *)
Definition apiHandler (cfg : Config) (sha : string -> string) (urlPath method : string)
    (limitStr offsetStr : string) (fileID : string) (now : Z) (r : UploadReq)
    (env : UploadEnv) (timestamp uptime : string) : M response :=
  let path := trim_prefix "/api/" urlPath in
  let parts := split_char "/"%char path in
  match parts with
  | [] => ret (HttpError 404 "Invalid API endpoint")
  | p :: _ =>
      if String.eqb p "files" then
        (if String.eqb method "GET" then listFilesAPI limitStr offsetStr
         else ret (HttpError 405 "Method not allowed"))
      else if String.eqb p "upload" then
        (if String.eqb method "POST" then uploadFile cfg sha fileID now r env
         else ret (HttpError 405 "Method not allowed"))
      else if String.eqb p "health" then healthCheck timestamp uptime
      else ret (HttpError 404 "Unknown API endpoint")
  end%string.

(** [hex.EncodeToString] over bytes given as integers in [0, 255]. *)
Definition hex_digit (n : Z) : ascii :=
  ascii_of_nat (Z.to_nat (if n <? 10 then 48 + n else 87 + n)).

Fixpoint hex_encode (bs : list Z) : string :=
  match bs with
  | [] => EmptyString
  | b :: rest => String (hex_digit (b / 16)) (String (hex_digit (b mod 16)) (hex_encode rest))
  end.

(** [generateID]; [rnd] is what [rand.Read] put in the 16-byte buffer. *)
Definition generateID (rnd : list Z) : string := hex_encode rnd.

(** [k] requests for [fileID] made one after the other by a client. *)
Fixpoint download_times (cfg : Config) (k : nat) (now : Z) (fileID password : string)
    (save_ok : bool) : M (list response) :=
  match k with
  | O => ret []
  | S k' =>
      r <-- downloadFile cfg now fileID password true save_ok;;
      rs <-- download_times cfg k' now fileID password save_ok;;
      ret (r :: rs)
  end.

(** The text of [s] before its first ['/'] (all of [s] when there is none). *)
Fixpoint first_segment (s : string) : string :=
  match s with
  | EmptyString => EmptyString
  | String c rest => if Ascii.eqb c "/"%char then EmptyString else String c (first_segment rest)
  end.

(** Whether every fallible step of [uploadFile] up to the write of the file succeeds. *)
Definition steps_ok (cfg : Config) (r : UploadReq) (env : UploadEnv) : bool :=
  form_ok env && type_allowed cfg (up_content_type r) && temp_ok env && copy_temp_ok env
  && mkdir_ok env && create_ok env && copy_dst_ok env.

(** * Properties *)

(** ** Primitive steps *)

Lemma set_lk_same (w : World) : set_lk (lk w) w = w.
Proof. by destruct w. Qed.

Lemma set_files_same (w : World) : set_files (files w) w = w.
Proof. by destruct w. Qed.

Lemma bind_done {A B} (m : M A) (k : A -> M B) (w w' : World) (a : A) :
  m w = Done a w' -> bind m k w = k a w'.
Proof. intros H. unfold bind. by rewrite H. Qed.

(** ** Download counter *)

(** Run one after the other, the second of two downloads of a record limited
    to one download is refused. *)
Lemma download_serialised :
  run_schedule 10 "f" "" [0; 0; 1; 1]%nat (<["f" := limited_record]> ∅, [TStart; TStart])
  = (<["f" := incr_downloads limited_record]> ∅, [TDone (DServe limited_record); TDone DLimit]).
Proof. vm_compute. reflexivity. Qed.

(** C1 (code_bug): two downloads of a record with [maxDownloads = 1] that both
    pass the unlocked limit check before either increments are both served,
    and the counter ends at 2, above [maxDownloads]. *)
Theorem download_limit_race :
  run_schedule 10 "f" "" [0; 1; 0; 1]%nat (<["f" := limited_record]> ∅, [TStart; TStart])
  = (<["f" := incr_downloads (incr_downloads limited_record)]> ∅,
     [TDone (DServe limited_record); TDone (DServe limited_record)])
  /\ Downloads (incr_downloads (incr_downloads limited_record)) = 2
  /\ MaxDownloads limited_record = 1.
Proof. vm_compute. repeat split; reflexivity. Qed.

(** ** Lock discipline *)


(** C8 (code_bug): a sweep that removes a record calls [saveMetadata] while it
    holds the write lock; [RLock] then waits forever: the goroutine is blocked
    with the write lock held and no snapshot is written. *)
Theorem cleanup_blocks_on_own_lock :
  match cleanup cfg_default 2000 (fun _ => true) true limited_world with
  | Blocked w' => lk w' = Writer /\ files w' = ∅ /\ snapshot w' = NoSnapshot
  | _ => False
  end.
Proof. vm_compute. repeat split; reflexivity. Qed.

(** ** Delete *)


Lemma bulk_loop_absent (rm_ok : string -> bool) (ids : list string) (w : World) (c : Z) :
  Forall (fun i => files w !! i = None) ids ->
  bulk_loop rm_ok ids c w = Done c w.
Proof.
  revert c. induction ids as [|i ids IH]; intros c H; [reflexivity |].
  inversion H as [|? ? Hi Hrest]; subst. cbn. rewrite Hi. by apply IH.
Qed.



(** ** Where disk accesses happen relative to the registry lock

    [runs l1 m l2]: started with the lock in state [l1], [m] terminates (it
    neither blocks nor faults), leaves the lock in state [l2], and every disk
    access it makes happens with the lock free, except the write of the
    metadata file under one read lock. *)

Section Discipline.

Variable cfg : Config.

Definition io_allowed (e : event) : Prop :=
  match e with
  | EvIO k p held => held = Free \/ (k = WriteFile /\ p = MetadataFile cfg /\ held = Readers 1)
  | EvHash => True
  end.

Definition runs {A} (l1 : lockst) (m : M A) (l2 : lockst) : Prop :=
  forall w, lk w = l1 ->
  exists a w' new, m w = Done a w' /\ lk w' = l2 /\ trace w' = trace w ++ new
                   /\ Forall io_allowed new.

Create HintDb runs_db.

Lemma runs_ret {A} l (a : A) : runs l (ret a) l.
Proof. intros w Hw. exists a, w, []. by rewrite app_nil_r. Qed.

Lemma runs_bind {A B} l1 l2 l3 (m : M A) (k : A -> M B) :
  runs l1 m l2 -> (forall a, runs l2 (k a) l3) -> runs l1 (bind m k) l3.
Proof.
  intros Hm Hk w Hw.
  destruct (Hm w Hw) as (a & w1 & n1 & E1 & L1 & T1 & F1).
  destruct (Hk a w1 L1) as (b & w2 & n2 & E2 & L2 & T2 & F2).
  exists b, w2, (n1 ++ n2). unfold bind. rewrite E1, E2.
  split; [done | split; [done | split]].
  - by rewrite T2, T1, app_assoc.
  - by apply Forall_app.
Qed.

Lemma runs_lock : runs Free lock Writer.
Proof. intros [] Hw; simpl in *; subst. eexists _, _, []. by rewrite app_nil_r. Qed.

Lemma runs_unlock : runs Writer unlock Free.
Proof. intros [] Hw; simpl in *; subst. eexists _, _, []. by rewrite app_nil_r. Qed.

Lemma runs_rlock : runs Free rlock (Readers 1).
Proof. intros [] Hw; simpl in *; subst. eexists _, _, []. by rewrite app_nil_r. Qed.

Lemma runs_runlock : runs (Readers 1) runlock Free.
Proof. intros [] Hw; simpl in *; subst. eexists _, _, []. by rewrite app_nil_r. Qed.

Lemma runs_get_files l : runs l get_files l.
Proof. intros w Hw. eexists _, w, []. by rewrite app_nil_r. Qed.

Lemma runs_put_files l fs : runs l (put_files fs) l.
Proof. intros [] Hw; simpl in *; subst. eexists _, _, []. by rewrite app_nil_r. Qed.

Lemma runs_get_disk l : runs l get_disk l.
Proof. intros w Hw. eexists _, w, []. by rewrite app_nil_r. Qed.

Lemma runs_put_disk l d : runs l (put_disk d) l.
Proof. intros [] Hw; simpl in *; subst. eexists _, _, []. by rewrite app_nil_r. Qed.

Lemma runs_set_snap l s : runs l (set_snap s) l.
Proof. intros [] Hw; simpl in *; subst. eexists _, _, []. by rewrite app_nil_r. Qed.

Lemma runs_hash_step l : runs l hash_step l.
Proof.
  intros [] Hw; simpl in *; subst. eexists _, _, [EvHash].
  split; [done | split; [done | split; [done | by repeat constructor]]].
Qed.

Lemma runs_io_free k p : runs Free (io k p) Free.
Proof.
  intros [] Hw; simpl in *; subst. eexists _, _, [EvIO k p Free].
  split; [done | split; [done | split; [done |]]]. constructor; [by left | constructor].
Qed.

Lemma runs_io_metadata : runs (Readers 1) (io WriteFile (MetadataFile cfg)) (Readers 1).
Proof.
  intros [] Hw; simpl in *; subst. eexists _, _, [EvIO WriteFile (MetadataFile cfg) (Readers 1)].
  split; [done | split; [done | split; [done |]]]. constructor; [by right | constructor].
Qed.

#[local] Hint Resolve runs_ret runs_lock runs_unlock runs_rlock runs_runlock runs_get_files
  runs_put_files runs_get_disk runs_put_disk runs_set_snap runs_hash_step runs_io_free
  runs_io_metadata : runs_db.

Ltac runs_solve :=
  lazymatch goal with
  | |- runs _ (bind _ _) _ => eapply runs_bind; [runs_solve | intros; runs_solve]
  | |- runs _ (match ?x with _ => _ end) _ => destruct x; runs_solve
  | |- _ => eauto with runs_db
  end.

Lemma runs_os_remove ok p : runs Free (os_remove ok p) Free.
Proof. unfold os_remove. runs_solve. Qed.

Lemma runs_saveMetadata ok : runs Free (saveMetadata cfg ok) Free.
Proof. unfold saveMetadata. runs_solve. Qed.

Lemma runs_calculateChecksum sha l content : runs l (calculateChecksum sha content) l.
Proof. unfold calculateChecksum. runs_solve. Qed.

#[local] Hint Resolve runs_os_remove runs_saveMetadata runs_calculateChecksum : runs_db.

Lemma runs_uploadFile sha fileID now r env : runs Free (uploadFile cfg sha fileID now r env) Free.
Proof. unfold uploadFile. cbv beta zeta. runs_solve. Qed.

Lemma runs_downloadFile now fileID password rm_ok save_ok :
  runs Free (downloadFile cfg now fileID password rm_ok save_ok) Free.
Proof. unfold downloadFile. runs_solve. Qed.


End Discipline.

(** ** Expiry *)




(** ** Sorting *)

Lemma insert_desc_perm key x l : Permutation (insert_desc key x l) (x :: l).
Proof.
  induction l as [|y l IH]; simpl; [done |].
  destruct (key x >? key y); [done |].
  etrans; [apply perm_skip, IH | apply perm_swap].
Qed.

Lemma sort_desc_perm key l : Permutation (sort_desc key l) l.
Proof.
  induction l as [|x l IH]; simpl; [done |].
  etrans; [apply insert_desc_perm | by apply perm_skip].
Qed.

Lemma insert_desc_hd key a x l :
  HdRel (fun p q => key q <= key p) a l -> key x <= key a ->
  HdRel (fun p q => key q <= key p) a (insert_desc key x l).
Proof.
  intros H Hx. destruct l as [|b l]; simpl; [by constructor |].
  destruct (key x >? key b); constructor; [done |]. by inversion H.
Qed.

Lemma insert_desc_sorted key x l :
  Sorted (fun p q => key q <= key p) l -> Sorted (fun p q => key q <= key p) (insert_desc key x l).
Proof.
  induction l as [|y l IH]; simpl; intros H; [by repeat constructor |].
  destruct (key x >? key y) eqn:E.
  - apply Z.gtb_lt in E. constructor; [done | constructor; lia].
  - rewrite Z.gtb_ltb, Z.ltb_ge in E. inversion H as [|? ? Hs Hd]; subst.
    constructor; [by apply IH | by apply insert_desc_hd].
Qed.

Lemma sort_desc_sorted key l : Sorted (fun p q => key q <= key p) (sort_desc key l).
Proof. induction l; simpl; [constructor | by apply insert_desc_sorted]. Qed.

Lemma sort_desc_length key l : length (sort_desc key l) = length l.
Proof. apply Permutation_length, sort_desc_perm. Qed.

Lemma in_sort_desc key x l : In x l -> In x (sort_desc key l).
Proof. intros H. eapply Permutation_in; [symmetry; apply sort_desc_perm | done]. Qed.

Lemma in_records (fs : gmap string FileInfo) id fi :
  fs !! id = Some fi -> In fi (map snd (map_to_list fs)).
Proof.
  intros H. apply (in_map snd (map_to_list fs) (id, fi)).
  apply list_elem_of_In. by apply elem_of_map_to_list.
Qed.

(** ** Serialized records *)

Lemma password_field fi :
  Password fi <> ""%string -> json_field (json_of_fileinfo fi) "password" = Some (JStr (Password fi)).
Proof.
  intros H. apply String.eqb_neq in H. unfold json_of_fileinfo. simpl. by rewrite H.
Qed.

Lemma appended_in fi l :
  In fi l -> exists js, json_of_appended l = JArr js /\ In (json_of_fileinfo fi) js.
Proof.
  intros H. destruct l as [|f l]; [done |].
  exists (map json_of_fileinfo (f :: l)). split; [done |]. by apply in_map.
Qed.



(** ** Search and listing *)


Lemma parse_limit_spec s p :
  atoi s = Some p -> parse_limit s = if (p >? 0) && (p <=? 1000) then p else 50.
Proof.
  intros H. unfold parse_limit. destruct (String.eqb s "") eqn:E.
  - apply String.eqb_eq in E. subst. discriminate.
  - by rewrite H.
Qed.



(** ** Checksums *)

Lemma download_check_serve now password o fi :
  download_check now password o = DServe fi -> o = Some fi.
Proof.
  destruct o as [f|]; cbn; [|discriminate].
  destruct (_ && _); [discriminate|]. destruct (now >? ExpiresAt f); [discriminate|].
  destruct (_ && _); [discriminate|]. congruence.
Qed.

(** C6: when an upload (started with the registry lock free) answers with
    a checksum [c], the registry holds the new record under its id with
    [Checksum] [c], the disk holds the uploaded bytes at the record's
    [Path], [c] is [sha256_hex] of those bytes, and the upload ran the hash
    exactly once. A download that serves a file sends the [Checksum] stored
    in the record it looked up and runs no hash. *)
Theorem upload_checksum_once (cfg : Config) (sha : string -> string) :
  (forall fileID now r env w w' resp c,
     lk w = Free ->
     uploadFile cfg sha fileID now r env w = Done resp w' ->
     resp_checksum resp = Some c ->
     exists fi new,
       files w' !! fileID = Some fi /\ Checksum fi = c /\
       disk w' !! Path fi = Some (up_content r) /\ c = sha (up_content r) /\
       trace w' = trace w ++ new /\ length (List.filter is_hash new) = 1%nat)
  /\ (forall now fileID password rm_ok save_ok w w' n ct ck body,
     lk w = Free ->
     downloadFile cfg now fileID password rm_ok save_ok w = Done (Served n ct ck body) w' ->
     exists fi new,
       files w !! fileID = Some fi /\ Checksum fi = ck /\
       trace w' = trace w ++ new /\ List.filter is_hash new = []).
Proof.
  split.
  - intros fileID now r env [fs d sn l tr] w' resp c; simpl; intros -> Hrun Hc.
    unfold uploadFile in Hrun. cbv beta zeta in Hrun.
    destruct (form_ok env); cbn in Hrun; [| injection Hrun as <- <-; discriminate].
    destruct (type_allowed cfg (up_content_type r)); cbn in Hrun;
      [| injection Hrun as <- <-; discriminate].
    destruct (temp_ok env); cbn in Hrun; [| injection Hrun as <- <-; discriminate].
    destruct (copy_temp_ok env); cbn in Hrun; [| injection Hrun as <- <-; discriminate].
    destruct (mkdir_ok env); cbn in Hrun; [| injection Hrun as <- <-; discriminate].
    destruct (create_ok env); cbn in Hrun; [| injection Hrun as <- <-; discriminate].
    destruct (copy_dst_ok env); cbn in Hrun; [| injection Hrun as <- <-; discriminate].
    destruct (save_ok env); cbn in Hrun;
      (destruct (up_accept_json r); injection Hrun as <- <-; cbn in Hc; injection Hc as <-);
      cbn [files disk trace log_event set_lk set_snapshot set_files set_disk];
      eexists _, _; (split; [apply lookup_insert_eq|]); cbn [Checksum Path];
      (split; [reflexivity|]); (split; [apply lookup_insert_eq|]); (split; [reflexivity|]);
      (split; [rewrite <- !app_assoc; reflexivity|]); reflexivity.
  - intros now fileID password rm_ok save_ok [fs d sn l tr] w' n ct ck body; simpl.
    intros -> H. unfold downloadFile in H; cbn in H.
    destruct (download_check now password (fs !! fileID)) as [| |fi| |fi] eqn:E; cbn in H;
      try discriminate H.
    + destruct rm_ok, save_ok; cbn in H; discriminate.
    + apply download_check_serve in E.
      destruct save_ok; cbn in H; injection H as <- <- <- <- <-; cbn;
      (eexists _, _; split; [exact E|]; split; [reflexivity|]; split;
       [rewrite <- !app_assoc; reflexivity | reflexivity]).
Qed.

Lemma upload_checksum_once_witness :
  lk empty_world = Free /\
  match uploadFile cfg_default (fun s => s) "u" 0 upload_sample upload_env_ok empty_world with
  | Done resp w' =>
      resp_checksum resp = Some "hello"%string /\
      (exists fi new,
         files w' !! "u"%string = Some fi /\ Checksum fi = "hello"%string /\
         disk w' !! Path fi = Some "hello"%string /\ "hello"%string = "hello"%string /\
         trace w' = trace empty_world ++ new /\ length (List.filter is_hash new) = 1%nat) /\
      lk w' = Free /\
      match downloadFile cfg_default 1 "u" "" true true w' with
      | Done (Served n ct ck body) w'' =>
          exists fi new,
            files w' !! "u"%string = Some fi /\ Checksum fi = ck /\
            trace w'' = trace w' ++ new /\ List.filter is_hash new = []
      | _ => False
      end
  | _ => False
  end.
Proof.
  split; [reflexivity |].
  case_eq (uploadFile cfg_default (fun s => s) "u" 0 upload_sample upload_env_ok empty_world);
    [| intros w E; vm_compute in E; discriminate | intros w E; vm_compute in E; discriminate].
  intros resp w' E.
  assert (Hc : resp_checksum resp = Some "hello"%string)
    by (vm_compute in E; injection E as <- <-; reflexivity).
  assert (Hl : lk w' = Free) by (vm_compute in E; injection E as <- <-; reflexivity).
  split; [exact Hc |]. split.
  { exact (proj1 (upload_checksum_once cfg_default (fun s => s)) "u"%string 0
             upload_sample upload_env_ok empty_world w' resp "hello"%string eq_refl E Hc). }
  split; [exact Hl |].
  case_eq (downloadFile cfg_default 1 "u" "" true true w');
    [| intros w2 E2; vm_compute in E; injection E as <- <-; vm_compute in E2; discriminate
     | intros w2 E2; vm_compute in E; injection E as <- <-; vm_compute in E2; discriminate].
  intros r2 w2 E2. destruct r2 as [| n ct ck body | | | |];
    try (vm_compute in E; injection E as <- <-; vm_compute in E2; discriminate).
  exact (proj2 (upload_checksum_once cfg_default (fun s => s)) 1 "u"%string ""%string
           true true w' w2 n ct ck body Hl E2).
Defined.

(** ** Persistence round trip *)

Lemma coerce_valid_aux n : forall s, (String.length s <= n)%nat ->
  valid_utf8 s = true -> coerce_utf8 s = s.
Proof.
  induction n as [|n IH]; intros [|c rest] Hlen Hv; cbn in *; try reflexivity; try lia.
  destruct (byte_of c <? 128); [rewrite IH; [reflexivity | lia | exact Hv] |].
  destruct (in_range 194 223 c).
  { destruct rest as [|c1 rest1]; [discriminate|]. cbn in Hlen.
    apply andb_true_iff in Hv as [-> Hv]. rewrite IH; [reflexivity | lia | exact Hv]. }
  destruct (in_range 224 239 c).
  { destruct rest as [|c1 [|c2 rest2]]; try discriminate. cbn in Hlen.
    apply andb_true_iff in Hv as [Hv1 Hv]. rewrite Hv1. rewrite IH; [reflexivity | lia | exact Hv]. }
  destruct (in_range 240 244 c); [|discriminate].
  destruct rest as [|c1 [|c2 [|c3 rest3]]]; try discriminate. cbn in Hlen.
  apply andb_true_iff in Hv as [Hv1 Hv]. rewrite Hv1. rewrite IH; [reflexivity | lia | exact Hv].
Qed.

Lemma coerce_valid s : valid_utf8 s = true -> coerce_utf8 s = s.
Proof. apply (coerce_valid_aux (String.length s)); lia. Qed.

Ltac split_valid :=
  repeat match goal with
  | H : _ && _ = true |- _ => apply andb_prop in H as [? ?]
  end.

Ltac rewrite_valid :=
  repeat match goal with
  | H : valid_utf8 ?s = true |- context [coerce_utf8 ?s] => rewrite (coerce_valid s H)
  end.

Lemma render_meta (l : list (string * string)) :
  forallb (fun kv => valid_utf8 kv.1 && valid_utf8 kv.2) l = true ->
  map (fun '(k, v) => (coerce_utf8 k, render v)) (map (fun '(k, v) => (k, JStr v)) l)
  = map (fun '(k, v) => (k, JStr v)) l.
Proof.
  induction l as [|[k v] l IH]; intros H; cbn in *; [reflexivity|].
  split_valid. rewrite_valid. f_equal. auto.
Qed.

Lemma render_tags (ts : list string) :
  forallb valid_utf8 ts = true -> map render (map JStr ts) = map JStr ts.
Proof.
  induction ts as [|t ts IH]; intros H; cbn in *; [reflexivity|].
  split_valid. rewrite_valid. f_equal. auto.
Qed.

Lemma render_fileinfo fi :
  fileinfo_valid fi = true -> render (json_of_fileinfo fi) = json_of_fileinfo fi.
Proof.
  destruct fi as [id fn on sz ct ck ut ex dl md pw ip tg ds pa me].
  unfold fileinfo_valid; cbn [ID Filename OriginalName ContentType Checksum Password
    UploaderIP Description Path Tags Metadata forallb]; intros H. split_valid.
  unfold json_of_fileinfo; cbn [ID Filename OriginalName Size ContentType Checksum UploadTime
    ExpiresAt Downloads MaxDownloads Password UploaderIP Description Path Tags Metadata].
  destruct (String.eqb pw ""); cbn -[map_to_list coerce_utf8 forallb]; rewrite_valid; rewrite render_meta by assumption;
    (destruct tg; [reflexivity |]); cbn [forallb render map] in *; split_valid; rewrite_valid;
    rewrite render_tags by assumption; reflexivity.
Qed.

Lemma mapM_meta (l : list (string * string)) :
  mapM (fun '(k, j) => match j with JStr s => Some (k, s) | _ => None end)
       (map (fun '(k, v) => (k, JStr v)) l) = Some l.
Proof. induction l as [|[k v] l IH]; cbn; [reflexivity|]. by rewrite IH. Qed.

Lemma mapM_tags (ts : list string) :
  mapM (fun j => match j with JStr s => Some s | _ => None end) (map JStr ts) = Some ts.
Proof. induction ts as [|t ts IH]; cbn; [reflexivity|]. by rewrite IH. Qed.

Lemma fileinfo_of_json_of_fileinfo fi :
  fileinfo_of_json (json_of_fileinfo fi) = Some fi.
Proof.
  destruct fi as [id fn on sz ct ck ut ex dl md pw ip tg ds pa me].
  unfold json_of_fileinfo, fileinfo_of_json; cbn [ID Filename OriginalName Size ContentType
    Checksum UploadTime ExpiresAt Downloads MaxDownloads Password UploaderIP Description Path
    Tags Metadata].
  destruct (String.eqb pw "") eqn:Hpw; [apply String.eqb_eq in Hpw as ->|];
    (destruct tg; cbn -[map_to_list mapM list_to_map map];
     rewrite ?mapM_tags, mapM_meta; cbn -[map_to_list list_to_map];
     rewrite list_to_map_to_list; reflexivity).
Qed.

Lemma files_of_json_of_files fs : files_of_json (json_of_files fs) = Some fs.
Proof.
  unfold json_of_files, files_of_json.
  assert (Hl : forall l : list (string * FileInfo),
    mapM (fun '(k, v) => fi ← fileinfo_of_json v; Some (k, fi))
         (map (fun '(k, fi) => (k, json_of_fileinfo fi)) l) = Some l).
  { induction l as [|[k fi] l IH]; cbn -[fileinfo_of_json json_of_fileinfo]; [reflexivity|].
    rewrite fileinfo_of_json_of_fileinfo, IH. reflexivity. }
  rewrite Hl. cbn. by rewrite list_to_map_to_list.
Qed.

Lemma render_files fs :
  registry_valid fs = true -> render (json_of_files fs) = json_of_files fs.
Proof.
  unfold registry_valid, json_of_files; cbn [render]. generalize (map_to_list fs) as l.
  induction l as [|[k fi] l IH]; intros H; cbn -[json_of_fileinfo render coerce_utf8] in *;
    [reflexivity|].
  split_valid. rewrite_valid. rewrite render_fileinfo by assumption.
  injection (IH H0) as ->. reflexivity.
Qed.





(** ** The registry and the upload directory *)


Lemma reg_ok_remove fs d id fi (ok : bool) :
  reg_ok fs d -> fs !! id = Some fi ->
  reg_ok (delete id fs) (if ok then delete (Path fi) d else d).
Proof.
  intros [Hd Hi] Hfi. split.
  - intros id' fi' H. apply lookup_delete_Some in H as [Hne H].
    destruct ok; [| exact (Hd _ _ H)].
    rewrite lookup_delete_ne; [exact (Hd _ _ H) |].
    intros Hp. apply Hne. exact (Hi _ _ _ _ Hfi H Hp).
  - intros id1 id2 fi1 fi2 H1 H2. apply lookup_delete_Some in H1 as [_ H1].
    apply lookup_delete_Some in H2 as [_ H2]. exact (Hi _ _ _ _ H1 H2).
Qed.

Lemma reg_ok_alter fs d id :
  reg_ok fs d -> reg_ok (alter incr_downloads id fs) d.
Proof.
  intros [Hd Hi]. split.
  - intros id' fi' H. apply lookup_alter_Some in H as [(<- & x & Hx & ->) | [_ H]].
    + exact (Hd _ _ Hx).
    + exact (Hd _ _ H).
  - intros id1 id2 fi1 fi2 H1 H2.
    apply lookup_alter_Some in H1 as [(<- & x1 & Hx1 & ->) | [_ H1]];
    apply lookup_alter_Some in H2 as [(<- & x2 & Hx2 & ->) | [_ H2]]; cbn; eauto.
Qed.

Lemma reg_ok_disk_insert fs d p c :
  reg_ok fs d -> reg_ok fs (<[p := c]> d).
Proof.
  intros [Hd Hi]. split; [| exact Hi].
  intros id fi H. destruct (decide (p = Path fi)) as [<-|Hne].
  - rewrite lookup_insert_eq. eauto.
  - rewrite lookup_insert_ne by exact Hne. exact (Hd _ _ H).
Qed.

Lemma reg_ok_insert fs d id fi c :
  reg_ok fs d ->
  (forall id' fi', fs !! id' = Some fi' -> id' <> id -> Path fi' <> Path fi) ->
  reg_ok (<[id := fi]> fs) (<[Path fi := c]> d).
Proof.
  intros Hok Hfresh. pose proof (reg_ok_disk_insert _ _ (Path fi) c Hok) as [Hd Hi]. split.
  - intros id' fi' H. apply lookup_insert_Some in H as [[<- <-] | [_ H]].
    + rewrite lookup_insert_eq. eauto.
    + exact (Hd _ _ H).
  - intros id1 id2 fi1 fi2 H1 H2 Hp.
    apply lookup_insert_Some in H1 as [[<- <-] | [Hne1 H1]];
    apply lookup_insert_Some in H2 as [[<- <-] | [Hne2 H2]]; auto.
    + exfalso. exact (Hfresh _ _ H2 (not_eq_sym Hne2) (eq_sym Hp)).
    + exfalso. exact (Hfresh _ _ H1 (not_eq_sym Hne1) Hp).
    + exact (Hi _ _ _ _ H1 H2 Hp).
Qed.

Lemma bulk_loop_ok rm ids c w :
  world_ok w ->
  exists c' w', bulk_loop rm ids c w = Done c' w' /\ world_ok w' /\ lk w' = lk w.
Proof.
  revert c w. induction ids as [|id ids IH]; intros c [fs d sn l tr] Hok.
  - eexists _, _. split; [reflexivity|]. split; [exact Hok | reflexivity].
  - cbn. destruct (fs !! id) as [fi|] eqn:Hfi.
    + unfold os_remove. destruct (rm (Path fi)); cbn;
      match goal with |- context [bulk_loop rm ids ?c' ?w'] =>
        destruct (IH c' w') as (c'' & w'' & E & Hok' & Hl) end;
      [exact (reg_ok_remove _ _ _ _ true Hok Hfi) | | exact (reg_ok_remove _ _ _ _ false Hok Hfi) |];
      rewrite E; eauto.
    + destruct (IH c (mkWorld fs d sn l tr) Hok) as (c'' & w'' & E & Hok' & Hl).
      rewrite E. eauto.
Qed.

Lemma cleanup_loop_ok now rm entries c w :
  world_ok w -> NoDup entries.*1 ->
  (forall id fi, (id, fi) ∈ entries -> files w !! id = Some fi) ->
  exists c' w', cleanup_loop now rm entries c w = Done c' w' /\ world_ok w' /\ lk w' = lk w.
Proof.
  revert c w. induction entries as [|[id fi] entries IH]; intros c [fs d sn l tr] Hok Hnd Hin.
  - eexists _, _. split; [reflexivity|]. split; [exact Hok | reflexivity].
  - cbn in Hnd. apply NoDup_cons in Hnd as [Hnotin Hnd].
    assert (Hfi : fs !! id = Some fi) by (apply Hin; left).
    assert (Hrest : forall id' fi', (id', fi') ∈ entries -> id' <> id /\ fs !! id' = Some fi').
    { intros id' fi' H. split.
      - intros ->. apply Hnotin. apply list_elem_of_fmap. exists (id, fi'). split; [reflexivity | exact H].
      - apply Hin. right. exact H. }
    cbn. destruct (eligible now fi).
    + unfold os_remove. destruct (rm (Path fi)); cbn;
      match goal with |- context [cleanup_loop now rm entries ?c' ?w'] =>
        destruct (IH c' w') as (c'' & w'' & E & Hok' & Hl) end;
      try exact Hnd;
      try (exact (reg_ok_remove _ _ _ _ true Hok Hfi));
      try (exact (reg_ok_remove _ _ _ _ false Hok Hfi));
      try (intros id' fi' H; destruct (Hrest _ _ H) as [Hne H']; cbn;
           rewrite lookup_delete_ne by congruence; exact H');
      rewrite E; eauto.
    + destruct (IH c (mkWorld fs d sn l tr) Hok Hnd) as (c'' & w'' & E & Hok' & Hl).
      { intros id' fi' H. exact (proj2 (Hrest _ _ H)). }
      rewrite E. eauto.
Qed.

Lemma upload_ok cfg sha fileID now r env w :
  lk w = Free -> world_ok w ->
  (forall id fi, files w !! id = Some fi -> id <> fileID -> Path fi <> upload_path cfg fileID r) ->
  world_ok (final_world (uploadFile cfg sha fileID now r env w))
  /\ (files (final_world (uploadFile cfg sha fileID now r env w)) = files w
      \/ disk (final_world (uploadFile cfg sha fileID now r env w)) !! upload_path cfg fileID r
         = Some (up_content r)).
Proof.
  destruct w as [fs d sn l tr]; cbn [lk files disk]; intros -> Hok Hfresh.
  unfold uploadFile; cbv beta zeta.
  destruct (form_ok env); cbn; [| split; [exact Hok | left; reflexivity]].
  destruct (type_allowed cfg (up_content_type r)); cbn; [| split; [exact Hok | left; reflexivity]].
  destruct (temp_ok env); cbn; [| split; [exact Hok | left; reflexivity]].
  destruct (copy_temp_ok env); cbn; [| split; [exact Hok | left; reflexivity]].
  destruct (mkdir_ok env); cbn; [| split; [exact Hok | left; reflexivity]].
  destruct (create_ok env); cbn; [| split; [exact Hok | left; reflexivity]].
  destruct (copy_dst_ok env); cbn;
    [| split; [exact (reg_ok_disk_insert _ _ _ _ Hok) | left; reflexivity]].
  destruct (save_ok env); cbn; (split; [| right; apply lookup_insert_eq]);
    apply reg_ok_insert; [apply reg_ok_disk_insert; exact Hok | exact Hfresh
                        | apply reg_ok_disk_insert; exact Hok | exact Hfresh].
Qed.

Lemma download_check_expired now password o fi :
  download_check now password o = DExpired fi -> o = Some fi.
Proof.
  destruct o as [f|]; cbn; [|discriminate].
  destruct (_ && _); [discriminate|]. destruct (now >? ExpiresAt f); [congruence|].
  destruct (_ && _); discriminate.
Qed.

Lemma download_ok cfg now fileID password rm_ok save_ok w :
  lk w = Free -> world_ok w ->
  world_ok (final_world (downloadFile cfg now fileID password rm_ok save_ok w)).
Proof.
  destruct w as [fs d sn l tr]; cbn [lk]; intros -> Hok.
  unfold downloadFile; cbn.
  destruct (download_check now password (fs !! fileID)) as [| |fi| |fi] eqn:E; cbn; try exact Hok.
  - apply download_check_expired in E.
    destruct rm_ok, save_ok; cbn;
      first [exact (reg_ok_remove _ _ _ _ true Hok E) | exact (reg_ok_remove _ _ _ _ false Hok E)].
  - destruct save_ok; cbn; apply reg_ok_alter; exact Hok.
Qed.

Lemma delete_ok cfg fileID rm_ok save_ok accept_json w :
  lk w = Free -> world_ok w ->
  world_ok (final_world (deleteFile cfg fileID rm_ok save_ok accept_json w)).
Proof.
  destruct w as [fs d sn l tr]; cbn [lk]; intros -> Hok.
  unfold deleteFile; cbn. destruct (fs !! fileID) as [fi|] eqn:Hfi; cbn; [| exact Hok].
  destruct rm_ok, save_ok; cbn;
    first [exact (reg_ok_remove _ _ _ _ true Hok Hfi) | exact (reg_ok_remove _ _ _ _ false Hok Hfi)].
Qed.

Lemma bulk_ok cfg ids rm save_ok w :
  lk w = Free -> world_ok w -> world_ok (final_world (bulkDelete cfg ids rm save_ok w)).
Proof.
  destruct w as [fs d sn l tr]; cbn [lk]; intros -> Hok.
  unfold bulkDelete, bind; cbn -[bulk_loop].
  match goal with |- context [bulk_loop rm ids 0 ?w0] =>
    destruct (bulk_loop_ok rm ids 0 w0 Hok) as (c & [fs' d' sn' l' tr'] & E & Hok' & Hl) end.
  rewrite E. cbn in Hl. subst l'. cbn.
  destruct (c >? 0), save_ok; cbn; exact Hok'.
Qed.

Lemma cleanup_ok cfg now rm save_ok w :
  lk w = Free -> world_ok w -> world_ok (final_world (cleanup cfg now rm save_ok w)).
Proof.
  destruct w as [fs d sn l tr]; cbn [lk]; intros -> Hok.
  unfold cleanup, bind; cbn -[cleanup_loop].
  match goal with |- context [cleanup_loop now rm ?es 0 ?w0] =>
    destruct (cleanup_loop_ok now rm es 0 w0 Hok) as (c & [fs' d' sn' l' tr'] & E & Hok' & Hl) end.
  - apply NoDup_fst_map_to_list.
  - intros id fi H. apply elem_of_map_to_list. exact H.
  - rewrite E. cbn in Hl. subst l'. cbn.
    destruct (c >? 0); cbn; exact Hok'.
Qed.

Lemma load_ok sf d id fi :
  loadMetadata sf d !! id = Some fi -> is_Some (d !! Path fi).
Proof.
  destruct sf as [| |j]; cbn; [by rewrite lookup_empty | by rewrite lookup_empty |].
  destruct (files_of_json j) as [fs|]; [| by rewrite lookup_empty].
  intros H. apply map_lookup_filter_Some in H as [_ H]. exact H.
Qed.


Lemma limited_world_ok : world_ok limited_world.
Proof.
  unfold world_ok, limited_world, world_of; cbn [files disk]. split.
  - intros id fi H. apply lookup_insert_Some in H as [[<- <-] | [_ H]];
      [vm_compute; eauto | rewrite lookup_empty in H; discriminate].
  - intros id1 id2 fi1 fi2 H1 H2 _.
    apply lookup_insert_Some in H1 as [[<- _] | [_ H1]]; [| rewrite lookup_empty in H1; discriminate].
    apply lookup_insert_Some in H2 as [[<- _] | [_ H2]]; [reflexivity | rewrite lookup_empty in H2; discriminate].
Qed.


(** ** Further properties of the handlers and helpers *)


Lemma wrap64_mod a b : a mod 2^64 = b mod 2^64 -> wrap64 a = wrap64 b.
Proof.
  intros H. unfold wrap64. f_equal.
  rewrite (Zplus_mod a), (Zplus_mod b), H. reflexivity.
Qed.

Lemma wrap64_add_l a b : wrap64 (wrap64 a + b) = wrap64 (a + b).
Proof.
  apply wrap64_mod. unfold wrap64.
  rewrite Zplus_mod, Zminus_mod, Zmod_mod, <- Zminus_mod, <- Zplus_mod.
  f_equal. lia.
Qed.

Lemma compute_stats_fold now l a b c e :
  fold_left (stats_step now) l (mkUploadStats (wrap64 a) (wrap64 b) (wrap64 c) (wrap64 e))
  = mkUploadStats (wrap64 (a + Z.of_nat (length l)))
      (wrap64 (b + fold_right Z.add 0 (map Size l)))
      (wrap64 (c + fold_right Z.add 0 (map Downloads l)))
      (wrap64 (e + Z.of_nat (length (List.filter (fun fi => now <? ExpiresAt fi) l)))).
Proof.
  revert a b c e. induction l as [|fi l IH]; intros a b c e; cbn.
  - rewrite !Z.add_0_r. reflexivity.
  - cbn [fold_left].
    match goal with |- context [stats_step now ?st fi] =>
      replace (stats_step now st fi) with
        (mkUploadStats (wrap64 (a + 1)) (wrap64 (b + Size fi)) (wrap64 (c + Downloads fi))
           (wrap64 (e + if now <? ExpiresAt fi then 1 else 0))) end.
    2: { unfold stats_step; cbn [TotalFiles TotalSize TotalDownloads ActiveFiles].
         rewrite !wrap64_add_l. destruct (now <? ExpiresAt fi);
         f_equal; f_equal; lia. }
    rewrite IH. cbn [length List.filter map fold_right].
    destruct (now <? ExpiresAt fi); cbn [length]; f_equal; f_equal; lia.
Qed.

Lemma sum_perm (f : FileInfo -> Z) l1 l2 :
  Permutation l1 l2 -> fold_right Z.add 0 (map f l1) = fold_right Z.add 0 (map f l2).
Proof. induction 1; cbn; lia. Qed.

Lemma filter_perm (f : FileInfo -> bool) l1 l2 :
  Permutation l1 l2 -> Permutation (List.filter f l1) (List.filter f l2).
Proof.
  induction 1; cbn; [constructor | destruct (f x); eauto using Permutation |
    destruct (f x), (f y); eauto using Permutation, perm_swap | eauto using Permutation].
Qed.

Lemma compute_stats_closed now l :
  compute_stats now l
  = mkUploadStats (wrap64 (Z.of_nat (length l))) (wrap64 (fold_right Z.add 0 (map Size l)))
      (wrap64 (fold_right Z.add 0 (map Downloads l)))
      (wrap64 (Z.of_nat (length (List.filter (fun fi => now <? ExpiresAt fi) l)))).
Proof.
  unfold compute_stats.
  change (mkUploadStats 0 0 0 0) with (mkUploadStats (wrap64 0) (wrap64 0) (wrap64 0) (wrap64 0)).
  rewrite compute_stats_fold, !Z.add_0_l. reflexivity.
Qed.

(** X1 ([getStats]): with the lock free, [getStats] changes nothing and answers
    the record count, the sum of the sizes, the sum of the download counts and
    the number of records whose expiry is after [now], each wrapped to 64 bits;
    the totals do not depend on the order in which the registry is walked. *)
Theorem getStats_totals (now : Z) (w : World) :
  lk w = Free ->
  getStats now w
    = Done (JsonBody (json_of_stats
        (mkUploadStats (wrap64 (Z.of_nat (size (files w))))
           (wrap64 (fold_right Z.add 0 (map Size (map snd (map_to_list (files w))))))
           (wrap64 (fold_right Z.add 0 (map Downloads (map snd (map_to_list (files w))))))
           (wrap64 (Z.of_nat (length (List.filter (fun fi => now <? ExpiresAt fi) (map snd (map_to_list (files w)))))))))) w
  /\ (forall l, Permutation l (map snd (map_to_list (files w))) -> compute_stats now l = compute_stats now (map snd (map_to_list (files w)))).
Proof.
  destruct w as [fs d sn l tr]; cbn [lk files]; intros ->. split.
  - unfold getStats; cbn -[compute_stats]. rewrite compute_stats_closed.
    rewrite length_map, length_map_to_list. reflexivity.
  - intros l' Hp. rewrite !compute_stats_closed.
    rewrite (Permutation_length Hp), (sum_perm Size _ _ Hp), (sum_perm Downloads _ _ Hp).
    rewrite (Permutation_length (filter_perm (fun fi => now <? ExpiresAt fi) _ _ Hp)).
    reflexivity.
Qed.

(** X2 ([downloadFile], [cleanup], [getStats]): a record whose expiry is exactly
    [now] is not counted as active and is not removed by a sweep at [now], yet
    it is still served at [now]; one nanosecond later it is refused with 404
    "File expired". *)
Theorem expiry_instant_boundary (cfg : Config) (w : World) (now : Z) (fileID password : string)
    (fi : FileInfo) (rm_ok save_ok : bool) :
  lk w = Free -> files w !! fileID = Some fi -> ExpiresAt fi = now ->
  (Password fi = ""%string \/ Password fi = password) ->
  (MaxDownloads fi <= 0 \/ Downloads fi < MaxDownloads fi) ->
  (forall st, ActiveFiles (stats_step now st fi) = ActiveFiles st)
  /\ eligible now fi = false
  /\ (exists w', downloadFile cfg now fileID password rm_ok save_ok w
                 = Done (Served (OriginalName fi) (ContentType fi) (Checksum fi)
                                (disk w !! Path fi)) w')
  /\ (exists w', downloadFile cfg (now + 1) fileID password rm_ok save_ok w
                 = Done (HttpError 404 "File expired") w').
Proof.
  destruct w as [fs d sn l tr]; cbn [lk files disk]; intros -> Hfi Hex Hpw Hlim.
  assert (Hp : (negb (String.eqb (Password fi) "") && negb (String.eqb (Password fi) password))%string = false).
  { destruct Hpw as [-> | ->]; [reflexivity |]. rewrite String.eqb_refl, andb_false_r. reflexivity. }
  assert (Hl : ((MaxDownloads fi >? 0) && (Downloads fi >=? MaxDownloads fi)) = false).
  { destruct Hlim; [apply andb_false_intro1; rewrite Z.gtb_ltb; apply Z.ltb_ge; lia |].
    apply andb_false_intro2. rewrite Z.geb_leb. apply Z.leb_gt. lia. }
  split; [| split; [| split]].
  - intros st. unfold stats_step; cbn. rewrite Hex, Z.ltb_irrefl. reflexivity.
  - unfold eligible. rewrite Hex, Hl. rewrite Z.gtb_ltb, Z.ltb_irrefl. reflexivity.
  - unfold downloadFile; cbn. rewrite Hfi. unfold download_check. rewrite Hp, Hex, Hl.
    rewrite Z.gtb_ltb, Z.ltb_irrefl. destruct save_ok; cbn; eexists; reflexivity.
  - unfold downloadFile; cbn. rewrite Hfi. unfold download_check. rewrite Hp, Hex.
    replace (now + 1 >? now) with true by (symmetry; rewrite Z.gtb_ltb; apply Z.ltb_lt; lia).
    destruct rm_ok, save_ok; cbn; eexists; reflexivity.
Qed.


Lemma fb_loop_spec (fuel : nat) (b n div exp : Z) :
  0 < div -> n = b / div -> 1 <= n -> n < 1024 ^ Z.of_nat (S fuel) ->
  exists k, 0 <= k /\ fb_loop fuel n div exp = (div * 1024 ^ k, exp + k)
            /\ 1 <= b / (div * 1024 ^ k) < 1024.
Proof.
  revert n div exp. induction fuel as [| f IH]; intros n div exp Hd Hn H1 Hlt.
  - exists 0. cbn. rewrite Z.mul_1_r, Z.add_0_r. split; [lia | split; [reflexivity |]].
    cbn in Hlt. lia.
  - cbn [fb_loop]. destruct (n >=? 1024) eqn:E.
    + apply Z.geb_le in E.
      destruct (IH (n / 1024) (div * 1024) (exp + 1)) as [k [Hk [Heq Hb]]].
      * lia.
      * rewrite Hn, Z.div_div; lia.
      * apply Z.div_le_lower_bound; lia.
      * apply Z.div_lt_upper_bound; [lia |].
        replace (Z.of_nat (S (S f))) with (Z.of_nat (S f) + 1) in Hlt by lia.
        rewrite Z.pow_add_r in Hlt by lia. lia.
      * exists (k + 1). split; [lia |]. rewrite Heq.
        replace (div * 1024 * 1024 ^ k) with (div * 1024 ^ (k + 1))
          by (rewrite Z.pow_add_r by lia; lia).
        split; [f_equal; lia |].
        replace (div * 1024 ^ (k + 1)) with (div * 1024 * 1024 ^ k)
          by (rewrite Z.pow_add_r by lia; lia). exact Hb.
    + rewrite Z.geb_leb, Z.leb_gt in E. exists 0. rewrite Z.mul_1_r, Z.add_0_r.
      split; [lia | split; [reflexivity | lia]].
Qed.

(** X3 ([formatBytes]): below 1024 the size is printed in plain bytes; from 1024
    up it is divided by the largest power [1024^(e+1)] not above it, with the
    unit letter at index [e] of "KMGTPE". *)
Theorem formatBytes_scale (bytes : Z) :
  (bytes < 1024 -> formatBytes bytes = Some (PlainBytes bytes))
  /\ (1024 <= bytes < 2 ^ 63 ->
      exists (exp : nat) (u : ascii),
        (exp <= 5)%nat /\ String.get exp "KMGTPE" = Some u
        /\ formatBytes bytes = Some (ScaledBytes bytes (1024 ^ (Z.of_nat exp + 1)) u)
        /\ 1024 ^ (Z.of_nat exp + 1) <= bytes < 1024 ^ (Z.of_nat exp + 2)).
Proof.
  split.
  - intros H. unfold formatBytes. rewrite (proj2 (Z.ltb_lt _ _) H). reflexivity.
  - intros [Hlo Hhi]. unfold formatBytes.
    rewrite (proj2 (Z.ltb_ge _ _) Hlo).
    destruct (fb_loop_spec 64 bytes (bytes / 1024) 1024 0) as [k [Hk [Heq Hb]]].
    + lia.
    + reflexivity.
    + apply Z.div_le_lower_bound; lia.
    + apply Z.div_lt_upper_bound; [lia |].
      apply (Z.lt_le_trans _ (2 ^ 63)); [lia |].
      replace (1024 * 1024 ^ Z.of_nat 65) with (2 ^ 660) by reflexivity.
      apply Z.pow_le_mono_r; lia.
    + rewrite Heq. rewrite Z.add_0_l.
      assert (Hpk : 0 < 1024 ^ k) by (apply Z.pow_pos_nonneg; lia).
      assert (Hlow : 1024 * 1024 ^ k <= bytes).
      { pose proof (Z.mul_div_le bytes (1024 * 1024 ^ k)). nia. }
      assert (Hup : bytes < 1024 * 1024 ^ k * 1024).
      { pose proof (Z.mul_succ_div_gt bytes (1024 * 1024 ^ k)). nia. }
      assert (Hk5 : k <= 5).
      { destruct (Z.le_gt_cases k 5) as [? | Hgt]; [assumption |].
        exfalso. assert (1024 ^ 6 <= 1024 ^ k) by (apply Z.pow_le_mono_r; lia).
        replace (1024 ^ 6) with (2 ^ 60) in H by reflexivity. lia. }
      exists (Z.to_nat k).
      assert (Hget : exists u, String.get (Z.to_nat k) "KMGTPE" = Some u).
      { assert (k = 0 \/ k = 1 \/ k = 2 \/ k = 3 \/ k = 4 \/ k = 5) as Hc by lia.
        destruct Hc as [-> | [-> | [-> | [-> | [-> | ->]]]]]; eexists; reflexivity. }
      destruct Hget as [u Hu]. exists u. rewrite Hu, Z2Nat.id by lia.
      rewrite (proj2 (Z.ltb_ge k 0)) by lia.
      split; [lia | split; [reflexivity | split]].
      * do 2 f_equal. rewrite Z.pow_add_r by lia. lia.
      * rewrite !Z.pow_add_r by lia. lia.
Qed.

Lemma substring_clamp (s : string) (n m : nat) :
  String.substring n m s = String.substring n (Nat.min m (String.length s - n)) s.
Proof.
  revert n m. induction s as [| c s IH]; intros [| n] [| m]; cbn; try reflexivity.

  all: try (rewrite IH; reflexivity).
  rewrite (IH 0%nat m), Nat.sub_0_r. reflexivity.
Qed.

Lemma substring_zero (s : string) (n : nat) : String.substring n 0 s = EmptyString.
Proof. revert n; induction s as [| c s IH]; intros [| n]; cbn; auto. Qed.

Lemma length_substring (s : string) (n m : nat) :
  String.length (String.substring n m s) = Nat.min m (String.length s - n).
Proof.
  revert n m. induction s as [| c s IH]; intros [| n] [| m]; cbn; try reflexivity.
  all: rewrite ?IH; try lia.
  all: destruct (String.length s - n)%nat; reflexivity.
Qed.



(** X5 ([manageFiles], [templateFile]): the rows of the management page are the
    records of the registry, newest upload first, with the totals of
    [getStats]; no row is marked both expired and near its limit, a row is
    marked expired exactly when a download would be refused as expired, and a
    record whose download limit is reached is marked near its limit. *)
Theorem manage_rows (now : Z) (fs : gmap string FileInfo) (password : string) :
  Permutation (map tf_file (fst (manage_page now fs))) (map snd (map_to_list fs))
  /\ Sorted (fun p q => UploadTime q <= UploadTime p) (map tf_file (fst (manage_page now fs)))
  /\ snd (manage_page now fs) = compute_stats now (map snd (map_to_list fs))
  /\ Forall (fun t =>
       negb (IsExpired t && NearLimit t) = true
       /\ ((Password (tf_file t) = ""%string \/ Password (tf_file t) = password) ->
           (IsExpired t = true <-> download_check now password (Some (tf_file t)) = DExpired (tf_file t)))
       /\ (download_check now password (Some (tf_file t)) = DLimit -> NearLimit t = true))
     (fst (manage_page now fs)).
Proof.
  unfold manage_page; cbn [fst snd].
  assert (Hf : forall l, map tf_file (map (templateFile now) l) = l).
  { intros l. rewrite map_map. apply map_id. }
  rewrite Hf. split; [apply sort_desc_perm | split; [apply sort_desc_sorted | split; [reflexivity |]]].
  apply List.Forall_forall. intros t Ht. apply in_map_iff in Ht as [f [<- _]].
  unfold templateFile; cbn [tf_file IsExpired NearLimit].
  split; [| split].
  - destruct (now >? ExpiresAt f); cbn; rewrite ?andb_false_r; reflexivity.
  - intros Hpw. unfold download_check.
    assert (Hp : (negb (String.eqb (Password f) "") && negb (String.eqb (Password f) password))%string = false).
    { destruct Hpw as [-> | ->]; [reflexivity |]. rewrite String.eqb_refl, andb_false_r. reflexivity. }
    rewrite Hp. destruct (now >? ExpiresAt f); [tauto |].
    destruct ((MaxDownloads f >? 0) && (Downloads f >=? MaxDownloads f));
      split; intro Hc; discriminate Hc.
  - unfold download_check.
    destruct (_ && _)%string; [discriminate |].
    destruct (now >? ExpiresAt f) eqn:Ex; [discriminate |].
    destruct ((MaxDownloads f >? 0) && (Downloads f >=? MaxDownloads f)) eqn:L; [| discriminate].
    intros _. apply andb_true_iff in L as [L1 L2]. rewrite L1, andb_true_l. cbn [negb].
    rewrite andb_true_r, Z.geb_leb. apply Z.leb_le. rewrite Z.geb_leb, Z.leb_le in L2. lia.
Qed.


Lemma split_char_head (s : string) :
  exists rest, split_char "/"%char s = first_segment s :: rest.
Proof.
  induction s as [| c s [rest IH]]; cbn; [eexists; reflexivity |].
  destruct (Ascii.eqb c "/"%char); [eexists; reflexivity |].
  rewrite IH. eexists; reflexivity.
Qed.



Lemma string_app_cancel_l (a x y : string) : (a ++ x = a ++ y)%string -> x = y.
Proof. induction a as [| c a IH]; cbn; [auto | intros H; injection H; auto]. Qed.

Lemma string_app_same_length (a b x y : string) :
  String.length a = String.length b -> (a ++ x = b ++ y)%string -> a = b.
Proof.
  revert b. induction a as [| c a IH]; intros [| c' b]; cbn; try discriminate; [reflexivity |].
  intros Hl H. injection H as -> H. f_equal. apply IH; [lia | exact H].
Qed.

Lemma hex_encode_length (l : list Z) : String.length (hex_encode l) = (2 * length l)%nat.
Proof. induction l as [| b l IH]; cbn; [reflexivity | rewrite IH; lia]. Qed.

Lemma hex_digit_inj (x y : Z) : 0 <= x < 16 -> 0 <= y < 16 -> hex_digit x = hex_digit y -> x = y.
Proof.
  intros Hx Hy H. unfold hex_digit in H. apply (f_equal nat_of_ascii) in H.
  destruct (x <? 10) eqn:Ex, (y <? 10) eqn:Ey;
    rewrite ?Z.ltb_lt, ?Z.ltb_ge in Ex, Ey;
    rewrite !nat_ascii_embedding in H by lia; lia.
Qed.

Lemma hex_encode_inj (l1 l2 : list Z) :
  Forall (fun b => 0 <= b < 256) l1 -> Forall (fun b => 0 <= b < 256) l2 ->
  hex_encode l1 = hex_encode l2 -> l1 = l2.
Proof.
  revert l2. induction l1 as [| b1 l1 IH]; intros [| b2 l2] H1 H2; cbn; try discriminate; [reflexivity |].
  inversion H1 as [| ? ? Hb1 Hl1]; inversion H2 as [| ? ? Hb2 Hl2]; subst.
  intros H. injection H as Hhi Hlo Hrest.
  apply hex_digit_inj in Hhi; [| split; [apply Z.div_pos | apply Z.div_lt_upper_bound]; lia ..].
  apply hex_digit_inj in Hlo; [| apply Z.mod_pos_bound; lia ..].
  f_equal; [| apply IH; assumption].
  rewrite (Z.div_mod b1 16), (Z.div_mod b2 16) by lia. lia.
Qed.

(** X7 ([generateID], [uploadFile]): ids are the hex encoding of 16 random bytes,
    so two uploads get the same storage path only when their random bytes are
    the same. *)
Theorem generated_paths_distinct (cfg : Config) (rnd1 rnd2 : list Z) (r1 r2 : UploadReq) :
  length rnd1 = 16%nat -> length rnd2 = 16%nat ->
  Forall (fun b => 0 <= b < 256) rnd1 -> Forall (fun b => 0 <= b < 256) rnd2 ->
  upload_path cfg (generateID rnd1) r1 = upload_path cfg (generateID rnd2) r2 ->
  rnd1 = rnd2.
Proof.
  intros L1 L2 F1 F2 H. unfold upload_path, path_join, generateID in H.
  apply string_app_cancel_l, string_app_cancel_l in H.
  apply string_app_same_length in H; [| rewrite !hex_encode_length; lia].
  apply hex_encode_inj; assumption.
Qed.


Lemma atoi_range (s : string) (n : Z) : atoi s = Some n -> - 2 ^ 63 <= n < 2 ^ 63.
Proof.
  unfold atoi. intros H.
  match type of H with
  | match ?m with pair _ _ => _ end = _ => destruct m as [neg body]
  end.
  destruct body as [| c b]; [discriminate |].
  destruct (digits_val _ 0) as [v |]; [| discriminate].
  destruct (_ && _) eqn:E; [| discriminate]. injection H as <-.
  apply andb_true_iff in E as [E1 E2]. apply Z.leb_le in E1. apply Z.ltb_lt in E2. lia.
Qed.

Lemma parse_limit_range (s : string) : 1 <= parse_limit s <= 1000.
Proof.
  unfold parse_limit. destruct (String.eqb s "") ; [lia |].
  destruct (atoi s) as [p |]; [| lia].
  destruct (p >? 0) eqn:E1, (p <=? 1000) eqn:E2; cbn; try lia.
  all: rewrite Z.gtb_ltb, Z.ltb_lt in E1; apply Z.leb_le in E2; lia.
Qed.

Lemma parse_offset_range (s : string) : 0 <= parse_offset s < 2 ^ 63.
Proof.
  unfold parse_offset. destruct (String.eqb s ""); [lia |].
  destruct (atoi s) as [p |] eqn:A; [| lia].
  apply atoi_range in A. destruct (p >=? 0) eqn:E; [| lia].
  rewrite Z.geb_leb, Z.leb_le in E. lia.
Qed.

Lemma firstn_same_min {A} (n m : nat) (xs : list A) :
  Nat.min n (length xs) = Nat.min m (length xs) -> firstn n xs = firstn m xs.
Proof.
  revert n m. induction xs as [| x xs IH]; intros [| n] [| m]; cbn; intros H;
    try reflexivity; try lia.
  f_equal. apply IH. lia.
Qed.

Lemma paginate_firstn_skipn (offset limit : Z) (l : list FileInfo) :
  0 <= offset < 2 ^ 63 -> 0 <= limit <= 1000 -> Z.of_nat (length l) < 2 ^ 62 ->
  paginate offset limit l = firstn (Z.to_nat limit) (skipn (Z.to_nat offset) l).
Proof.
  intros Ho Hl Hn. unfold paginate.
  destruct (offset >=? Z.of_nat (length l)) eqn:E.
  - rewrite Z.geb_le in E. rewrite skipn_all2 by lia. destruct (Z.to_nat limit); reflexivity.
  - rewrite Z.geb_leb, Z.leb_gt in E.
    replace (wrap64 (offset + limit)) with (offset + limit)
      by (unfold wrap64; rewrite Z.mod_small; lia).
    assert (Hs : length (skipn (Z.to_nat offset) l) = (length l - Z.to_nat offset)%nat)
      by apply length_skipn.
    apply firstn_same_min. rewrite Hs. lia.
Qed.

(** X8 ([listFilesAPI]): the API listing answers the page [offset .. offset+limit)
    of the records sorted newest first, with the limit clamped to [1, 1000],
    a non-negative offset and the total number of records. *)
Theorem list_page (w : World) (limitStr offsetStr : string) :
  lk w = Free -> Z.of_nat (size (files w)) < 2 ^ 62 ->
  listFilesAPI limitStr offsetStr w
  = Done (JsonBody (JObj
      [("files", JArr (map json_of_fileinfo
          (firstn (Z.to_nat (parse_limit limitStr))
             (skipn (Z.to_nat (parse_offset offsetStr))
                (sort_desc UploadTime (map snd (map_to_list (files w))))))));
       ("limit", JNum (parse_limit limitStr)); ("offset", JNum (parse_offset offsetStr));
       ("total", JNum (Z.of_nat (size (files w))))]))%string w
  /\ 1 <= parse_limit limitStr <= 1000 /\ 0 <= parse_offset offsetStr.
Proof.
  destruct w as [fs d sn l tr]; cbn [lk files]; intros -> Hn.
  pose proof (parse_limit_range limitStr) as HL. pose proof (parse_offset_range offsetStr) as HO.
  split; [| lia].
  unfold listFilesAPI; cbn -[paginate sort_desc map_to_list size parse_limit parse_offset].
  rewrite paginate_firstn_skipn; [| lia | lia |].
  - rewrite sort_desc_length, length_map, length_map_to_list. reflexivity.
  - rewrite sort_desc_length, length_map, length_map_to_list. exact Hn.
Qed.


Lemma split_char_cons (c : ascii) (s : string) : exists t ts, split_char c s = t :: ts.
Proof.
  destruct s as [| x r]; cbn; [eexists _, _; reflexivity |].
  destruct (Ascii.eqb x c); [eexists _, _; reflexivity |].
  destruct (split_char c r); eexists _, _; reflexivity.
Qed.

Lemma concat_cons_char (sep : string) (x : ascii) (w : string) (ws : list string) :
  String.concat sep (String x w :: ws) = String x (String.concat sep (w :: ws)).
Proof. destruct ws; reflexivity. Qed.

Lemma concat_split_char (c : ascii) (s : string) :
  String.concat (String c EmptyString) (split_char c s) = s.
Proof.
  induction s as [| x r IH]; [reflexivity |]. cbn [split_char].
  destruct (Ascii.eqb x c) eqn:E.
  - apply Ascii.eqb_eq in E as ->. destruct (split_char_cons c r) as [t [ts Hs]].
    rewrite Hs in IH |- *.
    change (String.concat (String c EmptyString) (EmptyString :: t :: ts))
      with (String c (String.concat (String c EmptyString) (t :: ts))).
    rewrite IH. reflexivity.
  - destruct (split_char c r) as [| w ws] eqn:Hs.
    + destruct (split_char_cons c r) as [t [ts Hs']]. congruence.
    + rewrite concat_cons_char, IH. reflexivity.
Qed.

Lemma split_char_chars (c : ascii) (s : string) :
  Forall (fun t => forall x, In x (list_ascii_of_string t) ->
                             x <> c /\ In x (list_ascii_of_string s)) (split_char c s).
Proof.
  induction s as [| y r IH]; cbn [split_char].
  - constructor; [cbn; tauto | constructor].
  - destruct (Ascii.eqb y c) eqn:E.
    + constructor; [cbn; tauto |].
      eapply Forall_impl; [exact IH |]. cbn. intros t Ht x Hx. specialize (Ht x Hx). tauto.
    + destruct (split_char c r) as [| w ws] eqn:Hs.
      * constructor; [| constructor]. cbn. intros x [<- | []].
        split; [intros ->; rewrite Ascii.eqb_refl in E; discriminate | left; reflexivity].
      * inversion IH as [| ? ? Hw Hws]; subst. constructor.
        -- cbn. intros x [<- | Hx].
           ++ split; [intros ->; rewrite Ascii.eqb_refl in E; discriminate | left; reflexivity].
           ++ specialize (Hw x Hx). tauto.
        -- eapply Forall_impl; [exact Hws |]. cbn. intros t Ht x Hx. specialize (Ht x Hx). tauto.
Qed.

Lemma replace_space_chars (s : string) (x : ascii) :
  In x (list_ascii_of_string (replace_char " "%char "" s)) -> x <> " "%char.
Proof.
  induction s as [| y r IH]; cbn; [tauto |].
  destruct (Ascii.eqb y " "%char) eqn:E; cbn; [exact IH |].
  intros [<- | Hx]; [| exact (IH Hx)].
  intros ->. rewrite Ascii.eqb_refl in E. discriminate.
Qed.

(** X9 ([uploadFile], tag parsing): an empty tag field gives no tags; otherwise
    the tags are the comma-separated pieces of the field with its spaces
    removed, and no tag holds a space or a comma. *)
Theorem parse_tags_split (tagsStr : string) :
  (parse_tags tagsStr = [] <-> tagsStr = ""%string)
  /\ (tagsStr <> ""%string ->
      String.concat "," (parse_tags tagsStr) = replace_char " "%char "" tagsStr
      /\ Forall (fun t => forall x, In x (list_ascii_of_string t) ->
                                    x <> " "%char /\ x <> ","%char) (parse_tags tagsStr)).
Proof.
  unfold parse_tags. split.
  - destruct (String.eqb_spec tagsStr ""); [tauto |].
    destruct (split_char_cons ","%char (replace_char " "%char "" tagsStr)) as [t [ts ->]].
    split; [discriminate | tauto].
  - intros Hne. destruct (String.eqb_spec tagsStr ""); [contradiction |].
    split; [apply concat_split_char |].
    eapply Forall_impl; [apply split_char_chars |]. cbn.
    intros t Ht x Hx. destruct (Ht x Hx) as [H1 H2]. split; [| exact H1].
    exact (replace_space_chars _ _ H2).
Qed.


Lemma atoi_empty : atoi "" = None.
Proof. reflexivity. Qed.

(** X10 ([uploadFile], TTL parsing): a TTL that is not an integer falls back to
    the configured default; an integer number of seconds becomes that many
    nanoseconds when that fits in an int64, and a nanosecond count between
    2^63 and 2^64 wraps around to a negative duration. *)
Theorem parse_ttl_cases (cfg : Config) (ttlStr : string) :
  (atoi ttlStr = None -> parse_ttl cfg ttlStr = DefaultTTL cfg)
  /\ (forall n, atoi ttlStr = Some n -> - 2 ^ 63 <= n * 1000000000 < 2 ^ 63 ->
      parse_ttl cfg ttlStr = n * 1000000000)
  /\ (forall n, atoi ttlStr = Some n -> 2 ^ 63 <= n * 1000000000 < 2 ^ 64 ->
      parse_ttl cfg ttlStr = n * 1000000000 - 2 ^ 64 /\ parse_ttl cfg ttlStr < 0).
Proof.
  unfold parse_ttl.
  destruct (String.eqb_spec ttlStr "") as [He | He]; [subst; rewrite atoi_empty; split; [reflexivity | split; discriminate] |].
  split; [intros ->; reflexivity |]. split.
  - intros n -> Hn. unfold wrap64. rewrite Z.mod_small; lia.
  - intros n -> Hn. unfold wrap64.
    replace ((n * 1000000000 + 2 ^ 63) mod 2 ^ 64) with (n * 1000000000 + 2 ^ 63 - 2 ^ 64); [lia |].
    apply Z.mod_unique with 1; lia.
Qed.



Lemma download_serve_step cfg now fileID password rm_ok save_ok w fi :
  lk w = Free -> files w !! fileID = Some fi ->
  download_check now password (Some fi) = DServe fi ->
  exists w', downloadFile cfg now fileID password rm_ok save_ok w
             = Done (Served (OriginalName fi) (ContentType fi) (Checksum fi) (disk w !! Path fi)) w'
    /\ lk w' = Free /\ disk w' = disk w /\ files w' = alter incr_downloads fileID (files w).
Proof.
  destruct w as [fs d sn l tr]; cbn [lk files disk]; intros -> Hfi Hc.
  unfold downloadFile; cbn. rewrite Hfi, Hc.
  destruct save_ok; cbn; eexists; (split; [reflexivity |]); repeat split.
Qed.

Lemma download_check_pass now password fi :
  (Password fi = ""%string \/ Password fi = password) -> now <= ExpiresAt fi ->
  (MaxDownloads fi <= 0 \/ Downloads fi < MaxDownloads fi) ->
  download_check now password (Some fi) = DServe fi.
Proof.
  intros Hpw Hex Hlim. unfold download_check.
  assert (Hp : (negb (String.eqb (Password fi) "") && negb (String.eqb (Password fi) password))%string = false).
  { destruct Hpw as [-> | ->]; [reflexivity |]. rewrite String.eqb_refl, andb_false_r. reflexivity. }
  rewrite Hp. rewrite Z.gtb_ltb, (proj2 (Z.ltb_ge _ _)) by lia.
  destruct Hlim.
  - rewrite Z.gtb_ltb, (proj2 (Z.ltb_ge _ _)) by lia. reflexivity.
  - rewrite Z.geb_leb, (proj2 (Z.leb_gt _ _)) by lia. rewrite andb_false_r. reflexivity.
Qed.

Lemma iter_incr_fields (k : nat) (fi : FileInfo) :
  Downloads (Nat.iter k incr_downloads fi) = Downloads fi + Z.of_nat k
  /\ OriginalName (Nat.iter k incr_downloads fi) = OriginalName fi
  /\ ContentType (Nat.iter k incr_downloads fi) = ContentType fi
  /\ Checksum (Nat.iter k incr_downloads fi) = Checksum fi
  /\ Path (Nat.iter k incr_downloads fi) = Path fi
  /\ Password (Nat.iter k incr_downloads fi) = Password fi
  /\ ExpiresAt (Nat.iter k incr_downloads fi) = ExpiresAt fi
  /\ MaxDownloads (Nat.iter k incr_downloads fi) = MaxDownloads fi.
Proof.
  induction k as [| k IH]; [cbn; repeat split; try reflexivity; lia |].
  rewrite !Nat.iter_succ.
  destruct IH as (H1 & H2 & H3 & H4 & H5 & H6 & H7 & H8).
  cbn [incr_downloads Downloads OriginalName ContentType Checksum Path Password ExpiresAt MaxDownloads].
  repeat split; congruence || lia.
Qed.

Lemma iter_incr_succ (k : nat) (fi : FileInfo) :
  Nat.iter k incr_downloads (incr_downloads fi) = Nat.iter (S k) incr_downloads fi.
Proof. induction k as [| k IH]; [reflexivity |]. rewrite Nat.iter_succ, IH. reflexivity. Qed.

Lemma download_times_serve cfg (k : nat) now fileID password save_ok w fi :
  lk w = Free -> files w !! fileID = Some fi ->
  (Password fi = ""%string \/ Password fi = password) -> now <= ExpiresAt fi ->
  (MaxDownloads fi <= 0 \/ Downloads fi + Z.of_nat k <= MaxDownloads fi) ->
  exists w', download_times cfg k now fileID password save_ok w
             = Done (repeat (Served (OriginalName fi) (ContentType fi) (Checksum fi)
                                    (disk w !! Path fi)) k) w'
    /\ lk w' = Free /\ disk w' = disk w
    /\ files w' !! fileID = Some (Nat.iter k incr_downloads fi)
    /\ (forall j, j <> fileID -> files w' !! j = files w !! j).
Proof.
  revert w fi. induction k as [| k IH]; intros w fi Hl Hfi Hpw Hex Hlim.
  - exists w. cbn. repeat split; auto.
  - destruct (download_serve_step cfg now fileID password true save_ok w fi Hl Hfi)
      as (w1 & E1 & Hl1 & Hd1 & Hf1).
    { apply download_check_pass; [exact Hpw | exact Hex | lia]. }
    assert (Hfi1 : files w1 !! fileID = Some (incr_downloads fi))
      by (rewrite Hf1, lookup_alter_eq, Hfi; reflexivity).
    destruct (IH w1 (incr_downloads fi) Hl1 Hfi1) as (w2 & E2 & Hl2 & Hd2 & Hf2 & Ho2);
      cbn [Password ExpiresAt MaxDownloads Downloads incr_downloads]; [exact Hpw | exact Hex | lia |].
    exists w2. cbn [download_times]. unfold bind at 1. rewrite E1.
    unfold bind. rewrite E2. cbn [repeat].
    rewrite Hd1 in *. cbn [incr_downloads OriginalName ContentType Checksum Path] in E2 |- *.
    split; [reflexivity |]. split; [exact Hl2 |]. split; [exact Hd2 |].
    split; [rewrite Hf2, iter_incr_succ; reflexivity |].
    intros j Hj. rewrite Ho2 by exact Hj. rewrite Hf1, lookup_alter_ne by congruence. reflexivity.
Qed.

(** X11 ([downloadFile]): a record with a positive limit, [k] downloads short of
    it, is served exactly [k] more times in a row; the next download is
    refused with 403 "Download limit reached" and changes nothing. *)
Theorem download_limit_sequential (cfg : Config) (now : Z) (fileID password : string)
    (rm_ok save_ok : bool) (k : nat) (w : World) (fi : FileInfo) :
  lk w = Free -> files w !! fileID = Some fi ->
  (Password fi = ""%string \/ Password fi = password) -> now <= ExpiresAt fi ->
  0 < MaxDownloads fi -> Downloads fi + Z.of_nat k = MaxDownloads fi ->
  exists w', download_times cfg k now fileID password save_ok w
             = Done (repeat (Served (OriginalName fi) (ContentType fi) (Checksum fi)
                                    (disk w !! Path fi)) k) w'
    /\ downloadFile cfg now fileID password rm_ok save_ok w'
       = Done (HttpError 403 "Download limit reached") w'
    /\ exists fi', files w' !! fileID = Some fi' /\ Downloads fi' = MaxDownloads fi.
Proof.
  intros Hl Hfi Hpw Hex Hpos Hk.
  destruct (download_times_serve cfg k now fileID password save_ok w fi Hl Hfi Hpw Hex)
    as (w' & E & Hl' & _ & Hf' & _); [lia |].
  destruct (iter_incr_fields k fi) as (D & _ & _ & _ & _ & P & X & Mx).
  exists w'. split; [exact E |]. split.
  - destruct w' as [fs d sn l tr]; cbn [lk files] in Hl', Hf'; subst l.
    unfold downloadFile; cbn. rewrite Hf'. unfold download_check.
    assert (Hp : (negb (String.eqb (Password (Nat.iter k incr_downloads fi)) "")
                  && negb (String.eqb (Password (Nat.iter k incr_downloads fi)) password))%string = false).
    { rewrite P. destruct Hpw as [-> | ->]; [reflexivity |].
      rewrite String.eqb_refl, andb_false_r. reflexivity. }
    rewrite Hp, X, Mx, D, Z.gtb_ltb, (proj2 (Z.ltb_ge _ _)) by lia.
    rewrite Z.gtb_ltb, (proj2 (Z.ltb_lt 0 _)) by lia.
    rewrite Z.geb_leb, (proj2 (Z.leb_le _ _)) by lia. reflexivity.
  - eexists. split; [exact Hf' | lia].
Qed.

(** X16 ([downloadFile], [uploadFile]): a limit field that is not a positive
    integer gives a limit of at most 0, and such a record is served any number
    of times; only its expiry makes it eligible for a sweep. *)
Theorem unlimited_downloads (cfg : Config) (now : Z) (fileID password : string) (save_ok : bool)
    (k : nat) (w : World) (fi : FileInfo) :
  (forall s, (forall n, atoi s = Some n -> n <= 0) -> parse_max_downloads s <= 0)
  /\ (lk w = Free -> files w !! fileID = Some fi ->
      (Password fi = ""%string \/ Password fi = password) -> now <= ExpiresAt fi ->
      MaxDownloads fi <= 0 ->
      (exists w', download_times cfg k now fileID password save_ok w
                  = Done (repeat (Served (OriginalName fi) (ContentType fi) (Checksum fi)
                                         (disk w !! Path fi)) k) w')
      /\ (forall t, eligible t fi = (t >? ExpiresAt fi))).
Proof.
  split.
  - intros s Hs. unfold parse_max_downloads. destruct (String.eqb s ""); [lia |].
    destruct (atoi s) as [n |] eqn:A; [exact (Hs n eq_refl) | lia].
  - intros Hl Hfi Hpw Hex Hmax. split.
    + destruct (download_times_serve cfg k now fileID password save_ok w fi Hl Hfi Hpw Hex)
        as (w' & E & _); [lia |]. eauto.
    + intros t. unfold eligible.
      rewrite (Z.gtb_ltb (MaxDownloads fi)), (proj2 (Z.ltb_ge _ _)) by lia.
      rewrite orb_false_r. reflexivity.
Qed.



Lemma cleanup_loop_spec now rm es c w :
  exists c' w', cleanup_loop now rm es c w = Done c' w' /\ lk w' = lk w /\
    c' = c + Z.of_nat (length (List.filter (fun kv : string * FileInfo => eligible now kv.2) es)) /\
    (forall j, files w' !! j
               = if existsb (fun kv : string * FileInfo => String.eqb kv.1 j && eligible now kv.2) es
                 then None else files w !! j) /\
    (List.filter (fun kv : string * FileInfo => eligible now kv.2) es = [] -> w' = w).
Proof.
  revert c w. induction es as [| [id fi] es IH]; intros c w.
  - exists c, w. cbn. repeat split; lia.
  - cbn [cleanup_loop List.filter existsb fst snd]. destruct (eligible now fi) eqn:E.
    + destruct w as [fs d sn l tr]. unfold os_remove.
      destruct (rm (Path fi)); cbn;
      match goal with |- context [cleanup_loop now rm es ?c1 ?w1] =>
        destruct (IH c1 w1) as (c' & w' & E' & Hl & Hc & Hf & _) end;
      rewrite E'; exists c', w'; cbn [lk files] in *;
      (split; [reflexivity |]); (split; [exact Hl |]);
      (split; [cbn [length]; lia |]); (split; [| discriminate]);
      intros j; rewrite Hf; rewrite andb_true_r;
      (destruct (String.eqb_spec id j) as [<- | Hne]; cbn [orb];
       [destruct (existsb _ es); [reflexivity | apply lookup_delete_eq] |
        destruct (existsb _ es); [reflexivity | apply lookup_delete_ne; exact Hne]]).
    + destruct (IH c w) as (c' & w' & E' & Hl & Hc & Hf & Hw).
      exists c', w'. split; [exact E' |]. split; [exact Hl |]. split; [exact Hc |].
      split; [| exact Hw]. intros j. rewrite Hf, andb_false_r. reflexivity.
Qed.

Lemma filter_none {A} (f : A -> bool) (l : list A) :
  (forall x, In x l -> f x = false) -> List.filter f l = [].
Proof.
  induction l as [| x l IH]; intros H; [reflexivity |]. cbn.
  rewrite (H x (or_introl eq_refl)). apply IH. intros y Hy. apply H. right. exact Hy.
Qed.

Lemma cleanup_unfold cfg now rm save_ok w :
  lk w = Free ->
  exists c w1, cleanup_loop now rm (map_to_list (files w)) 0 (set_lk Writer w) = Done c w1 /\
    lk w1 = Writer /\
    c = Z.of_nat (length (List.filter (fun kv : string * FileInfo => eligible now kv.2)
                           (map_to_list (files w)))) /\
    (forall j, files w1 !! j
               = if existsb (fun kv : string * FileInfo => String.eqb kv.1 j && eligible now kv.2)
                      (map_to_list (files w))
                 then None else files w !! j) /\
    (c = 0 -> w1 = set_lk Writer w) /\
    cleanup cfg now rm save_ok w
    = (if c >? 0 then Blocked w1 else Done tt (set_lk Free w1)).
Proof.
  intros Hl.
  destruct (cleanup_loop_spec now rm (map_to_list (files w)) 0 (set_lk Writer w))
    as (c & w1 & E & Hl1 & Hc & Hf & Hw).
  exists c, w1. split; [exact E |]. split; [exact Hl1 |]. split; [lia |].
  split; [exact Hf |]. split.
  - intros ->. apply Hw. destruct (List.filter _ _); [reflexivity | cbn in Hc; lia].
  - unfold cleanup, bind, lock. rewrite Hl. cbn -[cleanup_loop].
    replace (set_lk Writer w) with (set_lk Writer w) by reflexivity. rewrite E.
    destruct w1 as [f1 d1 s1 l1 t1]; cbn [lk] in Hl1; subst l1. destruct (c >? 0); reflexivity.
Qed.

(** X12 ([cleanup]): a sweep with nothing expired or exhausted changes nothing;
    otherwise it removes exactly those records and then blocks on the
    registry lock it still holds. *)
Theorem cleanup_outcome (cfg : Config) (now : Z) (rm_ok : string -> bool) (save_ok : bool)
    (w : World) :
  lk w = Free ->
  ((forall id fi, files w !! id = Some fi -> eligible now fi = false) ->
   cleanup cfg now rm_ok save_ok w = Done tt w)
  /\ ((exists id fi, files w !! id = Some fi /\ eligible now fi = true) ->
      exists w', cleanup cfg now rm_ok save_ok w = Blocked w' /\ lk w' = Writer /\
        files w' = filter (fun kv : string * FileInfo => eligible now kv.2 = false) (files w)).
Proof.
  intros Hl.
  destruct (cleanup_unfold cfg now rm_ok save_ok w Hl) as (c & w1 & _ & Hl1 & Hc & Hf & Hw & E).
  split.
  - intros Hno.
    assert (Hz : List.filter (fun kv : string * FileInfo => eligible now kv.2)
                   (map_to_list (files w)) = []).
    { apply filter_none. intros [id fi] Hin. apply list_elem_of_In, elem_of_map_to_list in Hin.
      cbn. rewrite (Hno _ _ Hin). reflexivity. }
    rewrite Hz in Hc. cbn in Hc. rewrite E, Hc, (Hw Hc). cbn.
    destruct w; cbn in *; subst; reflexivity.
  - intros (id & fi & Hfi & He).
    assert (Hpos : (c >? 0) = true).
    { rewrite Hc, Z.gtb_ltb. apply Z.ltb_lt.
      assert (In (id, fi) (List.filter (fun kv : string * FileInfo => eligible now kv.2)
                             (map_to_list (files w)))).
      { apply filter_In. split; [apply list_elem_of_In, elem_of_map_to_list; exact Hfi | exact He]. }
      destruct (List.filter _ _); [contradiction | cbn; lia]. }
    exists w1. rewrite E, Hpos. split; [reflexivity |]. split; [exact Hl1 |].
    apply map_eq. intros j. rewrite Hf.
    destruct (existsb _ _) eqn:Ex.
    + apply existsb_exists in Ex as [[j' fi'] [Hin Hjc]].
      apply andb_true_iff in Hjc as [Hj He']. apply String.eqb_eq in Hj. cbn in Hj, He'. subst j'.
      apply list_elem_of_In, elem_of_map_to_list in Hin.
      symmetry. apply map_lookup_filter_None. right. intros x Hx. rewrite Hin in Hx.
      injection Hx as <-. cbn. congruence.
    + destruct (files w !! j) as [fj |] eqn:Hj.
      * symmetry. apply map_lookup_filter_Some. split; [exact Hj |]. cbn.
        destruct (eligible now fj) eqn:Ej; [| reflexivity]. exfalso.
        assert (existsb (fun kv : string * FileInfo => String.eqb kv.1 j && eligible now kv.2)
                  (map_to_list (files w)) = true) as Ht.
        { apply existsb_exists. exists (j, fj). split.
          - apply list_elem_of_In, elem_of_map_to_list. exact Hj.
          - cbn. rewrite String.eqb_refl, Ej. reflexivity. }
        congruence.
      * symmetry. apply map_lookup_filter_None. left. exact Hj.
Qed.



Lemma bulk_loop_spec rm ids c w :
  exists c' w', bulk_loop rm ids c w = Done c' w' /\ lk w' = lk w /\ snapshot w' = snapshot w /\
    c' = c + Z.of_nat (size (files w)) - Z.of_nat (size (files w')) /\
    (forall j, files w' !! j = if existsb (fun i => String.eqb i j) ids then None else files w !! j).
Proof.
  revert c w. induction ids as [| id ids IH]; intros c w.
  - exists c, w. cbn. repeat split; lia.
  - destruct w as [fs d sn l tr]. cbn [bulk_loop existsb]. unfold bind at 1. cbn [get_files files].
    destruct (fs !! id) as [fi |] eqn:Hfi.
    + unfold os_remove. destruct (rm (Path fi)); cbn -[delete bulk_loop];
      match goal with |- context [bulk_loop rm ids ?c1 ?w1] =>
        destruct (IH c1 w1) as (c' & w' & E' & Hl & Hs & Hc & Hf) end;
      rewrite E'; exists c', w'; cbn [lk files snapshot set_files set_disk log_event] in *;
      (split; [reflexivity |]); (split; [exact Hl |]); (split; [exact Hs |]);
      (split; [rewrite Hc, map_size_delete, Hfi;
               assert (size fs <> 0)%nat by (apply map_size_ne_0_lookup; eauto); lia |]);
      intros j; rewrite Hf;
      (destruct (String.eqb_spec id j) as [<- | Hne]; cbn [orb];
       [destruct (existsb _ ids); [reflexivity | apply lookup_delete_eq] |
        destruct (existsb _ ids); [reflexivity | apply lookup_delete_ne; exact Hne]]).
    + cbn. destruct (IH c (mkWorld fs d sn l tr)) as (c' & w' & E' & Hl & Hs & Hc & Hf).
      exists c', w'. rewrite E'. repeat (split; [assumption || reflexivity |]).
      intros j. rewrite Hf. cbn [files].
      destruct (String.eqb_spec id j) as [<- | Hne]; cbn [orb];
        destruct (existsb _ ids); congruence.
Qed.

(** X14 ([bulkDelete]): bulk deletion removes exactly the listed ids that are
    registered, answers how many it removed and how many ids it was given,
    releases the lock, and writes no new snapshot when nothing was removed. *)
Theorem bulkDelete_counts (cfg : Config) (ids : list string) (rm_ok : string -> bool)
    (save_ok : bool) (w : World) :
  lk w = Free ->
  exists w', bulkDelete cfg ids rm_ok save_ok w
    = Done (JsonBody (JObj [("deleted", JNum (Z.of_nat (size (files w)) - Z.of_nat (size (files w'))));
                            ("total", JNum (Z.of_nat (length ids)))]))%string w'
    /\ lk w' = Free
    /\ files w' = filter (fun kv : string * FileInfo => kv.1 ∉ ids) (files w)
    /\ (size (files w') = size (files w) -> snapshot w' = snapshot w).
Proof.
  intros Hl.
  destruct (bulk_loop_spec rm_ok ids 0 (set_lk Writer w)) as (c & w1 & E & Hl1 & Hs1 & Hc & Hf).
  cbn [lk files snapshot set_lk] in Hl1, Hs1, Hc, Hf.
  assert (Hfilter : files w1 = filter (fun kv : string * FileInfo => kv.1 ∉ ids) (files w)).
  { apply map_eq. intros j. rewrite Hf.
    destruct (existsb (fun i => String.eqb i j) ids) eqn:Ex.
    - apply existsb_exists in Ex as [i [Hi Hij]]. apply String.eqb_eq in Hij. subst i.
      symmetry. apply map_lookup_filter_None. right. intros x _. cbn.
      intros Hn. apply Hn. apply list_elem_of_In. exact Hi.
    - destruct (files w !! j) as [fj |] eqn:Hj.
      + symmetry. apply map_lookup_filter_Some. split; [exact Hj |]. cbn.
        intros Hin. apply list_elem_of_In in Hin.
        assert (existsb (fun i => String.eqb i j) ids = true) as Ht
          by (apply existsb_exists; exists j; split; [exact Hin | apply String.eqb_refl]).
        congruence.
      + symmetry. apply map_lookup_filter_None. left. exact Hj. }
  destruct w1 as [fs1 d1 sn1 l1 tr1]; cbn [lk files snapshot] in Hl1, Hs1, Hc, Hfilter |- *; subst l1.
  assert (Hc' : c = Z.of_nat (size (files w)) - Z.of_nat (size fs1)) by lia. clear Hc. subst c.
  unfold bulkDelete. unfold bind at 1, lock. rewrite Hl. unfold bind at 1. rewrite E.
  destruct (_ >? 0) eqn:Ec.
  - destruct save_ok; cbn;
      (match goal with |- exists w', ?lhs = _ /\ _ => exists (final_world lhs) end);
      cbn; (split; [reflexivity |]);
      (split; [reflexivity |]); (split; [exact Hfilter |]); intros Hsz; rewrite Hsz in Ec;
      rewrite Z.sub_diag in Ec; discriminate Ec.
  - cbn. match goal with |- exists w', ?lhs = _ /\ _ => exists (final_world lhs) end.
    cbn. split; [reflexivity |].
    split; [reflexivity |]. split; [exact Hfilter |]. intros _. exact Hs1.
Qed.

(** X17 ([deleteFile], [fileInfo], [downloadFile]): after a record is deleted it
    is gone from the registry: its info, a download and a second delete all
    answer 404 "File not found", and its file is removed from disk when the
    removal succeeds. *)
Theorem delete_then_gone (cfg : Config) (fileID : string) (rm_ok save_ok accept_json : bool)
    (w : World) (fi : FileInfo) :
  lk w = Free -> files w !! fileID = Some fi ->
  exists w', deleteFile cfg fileID rm_ok save_ok accept_json w
    = Done (if accept_json then JsonBody (JObj [("status", JStr "deleted")])
            else SeeOther "/manage")%string w'
    /\ files w' = delete fileID (files w)
    /\ fileInfo fileID w' = Done (HttpError 404 "File not found") w'
    /\ (forall now password rm s, downloadFile cfg now fileID password rm s w'
                                  = Done (HttpError 404 "File not found") w')
    /\ (forall rm s aj, deleteFile cfg fileID rm s aj w' = Done (HttpError 404 "File not found") w')
    /\ (rm_ok = true -> disk w' !! Path fi = None).
Proof.
  destruct w as [fs d sn l tr]; cbn [lk files disk]; intros -> Hfi.
  unfold deleteFile at 1; cbn -[delete]. rewrite Hfi.
  assert (Hgone : forall W : World, lk W = Free -> files W = delete fileID fs ->
    fileInfo fileID W = Done (HttpError 404 "File not found") W
    /\ (forall now password rm s, downloadFile cfg now fileID password rm s W
                                  = Done (HttpError 404 "File not found") W)
    /\ (forall rm s aj, deleteFile cfg fileID rm s aj W = Done (HttpError 404 "File not found") W)).
  { intros [fs' d' sn' l' tr'] HL HF; cbn [lk files] in HL, HF; subst l' fs'.
    split; [| split].
    - unfold fileInfo; cbn -[delete]. rewrite lookup_delete_eq. reflexivity.
    - intros now password rm s. unfold downloadFile; cbn -[delete]. rewrite lookup_delete_eq. reflexivity.
    - intros rm s aj. unfold deleteFile; cbn -[delete]. rewrite lookup_delete_eq. reflexivity. }
  unfold os_remove. destruct rm_ok, save_ok; cbn -[delete];
    (eexists; split; [reflexivity |]); cbn [files disk lk];
    (split; [reflexivity |]);
    (match goal with |- fileInfo fileID ?W = _ /\ _ =>
       destruct (Hgone W eq_refl eq_refl) as (G1 & G2 & G3) end;
     split; [exact G1 |]; split; [exact G2 |];
     split; [exact G3 |]);
    intros Hr; try discriminate Hr; apply lookup_delete_eq.
Qed.

(** ** Instances of the further properties *)

Lemma getStats_totals_witness :
  lk limited_world = Free /\
  getStats 0 limited_world = Done (JsonBody (json_of_stats (mkUploadStats 1 10 0 1))) limited_world.
Proof.
  split; [reflexivity |].
  destruct (getStats_totals 0 limited_world eq_refl) as [H _]. rewrite H.
  vm_compute. reflexivity.
Defined.

Lemma expiry_instant_boundary_witness :
  (lk limited_world = Free /\ files limited_world !! "f"%string = Some limited_record /\
   ExpiresAt limited_record = 1000 /\
   (Password limited_record = ""%string \/ Password limited_record = ""%string) /\
   (MaxDownloads limited_record <= 0 \/ Downloads limited_record < MaxDownloads limited_record)) /\
  eligible 1000 limited_record = false /\
  (exists w', downloadFile cfg_default 1000 "f" "" true true limited_world
              = Done (Served "a.txt" "text/plain" "c0ffee" (Some "0123456789"%string)) w') /\
  (exists w', downloadFile cfg_default 1001 "f" "" true true limited_world
              = Done (HttpError 404 "File expired") w').
Proof.
  assert (H1 : lk limited_world = Free) by reflexivity.
  assert (H2 : files limited_world !! "f"%string = Some limited_record) by reflexivity.
  assert (H3 : ExpiresAt limited_record = 1000) by reflexivity.
  assert (H4 : Password limited_record = ""%string \/ Password limited_record = ""%string)
    by (left; reflexivity).
  assert (H5 : MaxDownloads limited_record <= 0 \/ Downloads limited_record < MaxDownloads limited_record)
    by (right; cbn; lia).
  destruct (expiry_instant_boundary cfg_default limited_world 1000 "f" "" limited_record true true
              H1 H2 H3 H4 H5) as (_ & He & Hd & Hx).
  split; [tauto |]. split; [exact He |]. split; [exact Hd | exact Hx].
Defined.


Lemma generated_paths_distinct_witness :
  length (repeat 7 16) = 16%nat /\
  Forall (fun b => 0 <= b < 256) (repeat 7 16) /\
  upload_path cfg_default (generateID (repeat 7 16)) upload_sample
    = upload_path cfg_default (generateID (repeat 7 16)) upload_sample /\
  repeat 7 16 = repeat 7 16.
Proof.
  assert (Hf : Forall (fun b => 0 <= b < 256) (repeat 7 16)) by (repeat constructor; lia).
  split; [reflexivity |]. split; [exact Hf |]. split; [reflexivity |].
  exact (generated_paths_distinct cfg_default (repeat 7 16) (repeat 7 16) upload_sample upload_sample
           eq_refl eq_refl Hf Hf eq_refl).
Defined.

Lemma list_page_witness :
  lk (numbered_world 3) = Free /\ Z.of_nat (size (files (numbered_world 3))) < 2 ^ 62 /\
  match listFilesAPI "2" "1" (numbered_world 3) with
  | Done (JsonBody (JObj [("files", JArr page); _; _; ("total", JNum 3)])) _ =>
      page = map json_of_fileinfo [numbered_record 1; numbered_record 0]
  | _ => False
  end.
Proof.
  assert (H1 : lk (numbered_world 3) = Free) by reflexivity.
  assert (H2 : Z.of_nat (size (files (numbered_world 3))) < 2 ^ 62) by (vm_compute; reflexivity).
  split; [exact H1 |]. split; [exact H2 |].
  rewrite (proj1 (list_page (numbered_world 3) "2" "1" H1 H2)).
  vm_compute. reflexivity.
Defined.

Lemma download_limit_sequential_witness :
  (lk limited_world = Free /\ files limited_world !! "f"%string = Some limited_record /\
   (Password limited_record = ""%string \/ Password limited_record = ""%string) /\
   0 <= ExpiresAt limited_record /\ 0 < MaxDownloads limited_record /\
   Downloads limited_record + Z.of_nat 1 = MaxDownloads limited_record) /\
  exists w', download_times cfg_default 1 0 "f" "" true limited_world
             = Done [Served "a.txt" "text/plain" "c0ffee" (Some "0123456789"%string)] w'
    /\ downloadFile cfg_default 0 "f" "" true true w' = Done (HttpError 403 "Download limit reached") w'.
Proof.
  assert (H1 : lk limited_world = Free) by reflexivity.
  assert (H2 : files limited_world !! "f"%string = Some limited_record) by reflexivity.
  assert (H3 : Password limited_record = ""%string \/ Password limited_record = ""%string)
    by (left; reflexivity).
  assert (H4 : 0 <= ExpiresAt limited_record) by (cbn; lia).
  assert (H5 : 0 < MaxDownloads limited_record) by (cbn; lia).
  assert (H6 : Downloads limited_record + Z.of_nat 1 = MaxDownloads limited_record) by reflexivity.
  split; [tauto |].
  destruct (download_limit_sequential cfg_default 0 "f" "" true true 1 limited_world limited_record
              H1 H2 H3 H4 H5 H6) as (w' & E & D & _).
  exists w'. split; [exact E | exact D].
Defined.

Lemma unlimited_downloads_witness :
  parse_max_downloads "-3" <= 0 /\
  exists w', download_times cfg_default 3 0 "p" "abc" true protected_world
             = Done (repeat (Served "s.txt" "text/plain" "ab12" (Some "xyz"%string)) 3) w'.
Proof.
  destruct (unlimited_downloads cfg_default 0 "p" "abc" true 3 protected_world protected_record)
    as [Hp Hd].
  split.
  - apply Hp. intros n Hn. vm_compute in Hn. injection Hn as <-. lia.
  - destruct Hd as [Hd _]; [reflexivity | reflexivity | right; reflexivity | cbn; lia | cbn; lia |].
    exact Hd.
Defined.


Lemma cleanup_outcome_witness :
  lk limited_world = Free /\
  exists w', cleanup cfg_default 2000 (fun _ => true) true limited_world = Blocked w'
    /\ lk w' = Writer /\ files w' = ∅.
Proof.
  assert (H1 : lk limited_world = Free) by reflexivity.
  split; [exact H1 |].
  destruct (proj2 (cleanup_outcome cfg_default 2000 (fun _ => true) true limited_world H1))
    as (w' & E & Hl & Hf).
  { exists "f"%string, limited_record. split; reflexivity. }
  exists w'. split; [exact E |]. split; [exact Hl |]. rewrite Hf. vm_compute. reflexivity.
Defined.


Lemma bulkDelete_counts_witness :
  lk limited_world = Free /\
  exists w', bulkDelete cfg_default ["f"; "x"]%string (fun _ => true) true limited_world
             = Done (JsonBody (JObj [("deleted", JNum 1); ("total", JNum 2)]))%string w'
    /\ files w' = ∅.
Proof.
  assert (H1 : lk limited_world = Free) by reflexivity.
  split; [exact H1 |].
  destruct (bulkDelete_counts cfg_default ["f"; "x"]%string (fun _ => true) true limited_world H1)
    as (w' & E & _ & Hf & _).
  exists w'. rewrite E, Hf. split; vm_compute; reflexivity.
Defined.


Lemma delete_then_gone_witness :
  (lk limited_world = Free /\ files limited_world !! "f"%string = Some limited_record) /\
  exists w', deleteFile cfg_default "f" true true false limited_world = Done (SeeOther "/manage") w'
    /\ fileInfo "f" w' = Done (HttpError 404 "File not found") w'
    /\ disk w' !! "./files/f_a.txt"%string = None.
Proof.
  assert (H1 : lk limited_world = Free) by reflexivity.
  assert (H2 : files limited_world !! "f"%string = Some limited_record) by reflexivity.
  split; [tauto |].
  destruct (delete_then_gone cfg_default "f" true true false limited_world limited_record H1 H2)
    as (w' & E & _ & Hi & _ & _ & Hd).
  exists w'. split; [exact E |]. split; [exact Hi |]. exact (Hd eq_refl).
Defined.
